(** * Outline classifier of the PDF outline extractor

    A shallow embedding of [PDFOutlineExtractor._process_segments] and of its
    helpers [_clean_text], [_is_valid_heading] and [_size_to_level]
    (src/extractor/pdf_outline_extractor.py), followed by the properties the
    specification states about them.

    Conventions of the embedding.
    - A Python [str] is a Rocq [string]; a character is read as the code
      point U+0000..U+00FF with the same number, and the character classes
      below are those of the Python runtime on that range.
    - A Python [int] is a [Z].
    - A font size is a Python [float].  Every float that is neither NaN nor
      infinite is a dyadic rational, and [==], [<] on such floats are the
      comparisons of the rationals they denote; a font size is therefore a
      [Q], compared with [Qeq_bool] and [Qle_bool].  Like [0.0] and [-0.0],
      two rationals can be equal for [==] without being the same value.
      NaN, whose behaviour in [dict] and [list.index] depends on object
      identity, is outside the model.
    - An exception is a value of [pyresult]. *)

From Stdlib Require Import ZArith QArith Bool List Lia.
From Stdlib Require Import Ascii String DecimalString.
From Stdlib Require Import Sorted SetoidList.
Import ListNotations.

Local Open Scope string_scope.
Local Open Scope Z_scope.

(** ** Character classes of the Python runtime on U+0000..U+00FF *)

Module Char.

Definition code (c : ascii) : N := N_of_ascii c.

Definition between (lo hi : N) (c : ascii) : bool :=
  ((lo <=? code c) && (code c <=? hi))%N.

(** [Py_UNICODE_ISSPACE]: the class of [\s] in a [str] pattern and of
    [str.strip()] / [str.split()] without argument. *)
Definition isspace (c : ascii) : bool :=
  between 9 13 c || between 28 32 c
  || (code c =? 133)%N || (code c =? 160)%N.

(** [\d] in a [str] pattern: the decimal digits. *)
Definition isdigit (c : ascii) : bool := between 48 57 c.

(** The class [[A-Z]]. *)
Definition isAZ (c : ascii) : bool := between 65 90 c.

(** [Py_UNICODE_ISUPPER] and [Py_UNICODE_ISLOWER]. *)
Definition isupper (c : ascii) : bool :=
  between 65 90 c || between 192 214 c || between 216 222 c.

Definition islower (c : ascii) : bool :=
  between 97 122 c || (code c =? 170)%N || (code c =? 181)%N
  || (code c =? 186)%N || between 223 246 c || between 248 255 c.

(** [str.isalpha] on one character: on this range the letters are the
    uppercase and the lowercase characters. *)
Definition isalpha (c : ascii) : bool := isupper c || islower c.

End Char.

(** ** The [str] methods and the [re] calls the classifier uses *)

Module Str.

Fixpoint all (p : ascii -> bool) (s : string) : bool :=
  match s with
  | EmptyString => true
  | String c s' => p c && all p s'
  end.

Fixpoint any (p : ascii -> bool) (s : string) : bool :=
  match s with
  | EmptyString => false
  | String c s' => p c || any p s'
  end.

(** [span p s]: the longest prefix of [s] made of [p] characters, and
    what follows it. *)
Fixpoint span (p : ascii -> bool) (s : string) : string * string :=
  match s with
  | EmptyString => (EmptyString, EmptyString)
  | String c s' =>
      if p c then let (a, r) := span p s' in (String c a, r)
      else (EmptyString, s)
  end.

Definition starts_with (p : ascii -> bool) (s : string) : bool :=
  match s with
  | EmptyString => false
  | String c _ => p c
  end.

(** [s.count(".")] for a one-character needle. *)
Fixpoint count (x : ascii) (s : string) : Z :=
  match s with
  | EmptyString => 0
  | String c s' => (if Ascii.eqb c x then 1 else 0) + count x s'
  end.

Fixpoint lstrip (s : string) : string :=
  match s with
  | EmptyString => EmptyString
  | String c s' => if Char.isspace c then lstrip s' else s
  end.

Fixpoint rstrip (s : string) : string :=
  match s with
  | EmptyString => EmptyString
  | String c s' =>
      match rstrip s' with
      | EmptyString =>
          if Char.isspace c then EmptyString else String c EmptyString
      | r => String c r
      end
  end.

(** [s.strip()] *)
Definition strip (s : string) : string := rstrip (lstrip s).

(** [re.sub(r"\s+", " ", s)]: every maximal run of whitespace becomes one
    space.  [in_run] tells that the previous character was whitespace. *)
Fixpoint sub_ws_from (in_run : bool) (s : string) : string :=
  match s with
  | EmptyString => EmptyString
  | String c s' =>
      if Char.isspace c
      then if in_run then sub_ws_from true s'
           else String " " (sub_ws_from true s')
      else String c (sub_ws_from false s')
  end.

Definition sub_ws (s : string) : string := sub_ws_from false s.

(** [s.split()]: the maximal runs of characters that are not whitespace. *)
Fixpoint split (s : string) : list string :=
  match s with
  | EmptyString => []
  | String c s' =>
      if Char.isspace c then split s'
      else if starts_with Char.isspace s' then String c EmptyString :: split s'
      else match split s' with
           | w :: ws => String c w :: ws
           | [] => [String c EmptyString]
           end
  end.

(** [s.isupper()]: no lowercase character and at least one uppercase
    one ([cased] records that one was seen). *)
Fixpoint isupper_from (cased : bool) (s : string) : bool :=
  match s with
  | EmptyString => cased
  | String c s' =>
      if Char.islower c then false
      else isupper_from (cased || Char.isupper c) s'
  end.

Definition isupper (s : string) : bool := isupper_from false s.

(** [f"{n}"] for an integer. *)
Definition of_int (n : Z) : string := NilZero.string_of_int (Z.to_int n).

End Str.

(** [PDFOutlineExtractor._clean_text] *)
Definition _clean_text (text : string) : string :=
  let text := Str.sub_ws text in
  Str.strip text.


(** A string is squeezed when its only whitespace characters are single
    spaces, each followed by a character that is not whitespace or by the
    end of the string. *)
Fixpoint squeezed (s : string) : Prop :=
  match s with
  | EmptyString => True
  | String c s' =>
      (Char.isspace c = true ->
       c = " "%char /\ Str.starts_with Char.isspace s' = false)
      /\ squeezed s'
  end.

(** ** The two regular expressions of [_is_valid_heading] and the heading
       pattern *)

(** [re.fullmatch(r"\d{1,2}\s+[A-Z]{3,}\s+\d{2,4}", text)].  The three
    classes are pairwise disjoint, so the only way to match is to give each
    group the whole run of its class. *)
Definition date_like (text : string) : bool :=
  let (d1, r1) := Str.span Char.isdigit text in
  let (w1, r2) := Str.span Char.isspace r1 in
  let (u, r3) := Str.span Char.isAZ r2 in
  let (w2, r4) := Str.span Char.isspace r3 in
  let (d2, r5) := Str.span Char.isdigit r4 in
  (1 <=? String.length d1)%nat && (String.length d1 <=? 2)%nat
  && (1 <=? String.length w1)%nat
  && (3 <=? String.length u)%nat
  && (1 <=? String.length w2)%nat
  && (2 <=? String.length d2)%nat && (String.length d2 <=? 4)%nat
  && String.eqb r5 "".

(** [re.fullmatch(r"\d+", text)] *)
Definition all_digits (text : string) : bool :=
  negb (String.eqb text "") && Str.all Char.isdigit text.

(** The greedy tail of the group of the heading pattern once a first digit
    has been read:
    more digits, or a dot that a digit follows.  Returns what was read and
    what is left. *)
Fixpoint dotted_tail (s : string) : string * string :=
  match s with
  | EmptyString => (EmptyString, EmptyString)
  | String c s' =>
      if Char.isdigit c then
        let (g, r) := dotted_tail s' in (String c g, r)
      else if Ascii.eqb c "." then
        match s' with
        | String d s'' =>
            if Char.isdigit d then
              let (g, r) := dotted_tail s'' in (String c (String d g), r)
            else (EmptyString, s)
        | EmptyString => (EmptyString, s)
        end
      else (EmptyString, s)
  end.

(** [heading_pattern.match(text)] for the pattern compiled on line 144 (a
    group made of a run of digits and of any number of groups "dot, run of
    digits", then a run of whitespace): [Some] of [m.group(1)] when the
    pattern matches at the start of [text], [None] otherwise. *)
Definition heading_pattern_match (text : string) : option string :=
  match text with
  | String c s' =>
      if Char.isdigit c then
        let (g, r) := dotted_tail s' in
        if Str.starts_with Char.isspace r then Some (String c g) else None
      else None
  | EmptyString => None
  end.

(** The languages of the patterns, read off the regular expressions; the
    functions above are proved to decide them. *)
Definition digits (s : string) : Prop :=
  s <> "" /\ Str.all Char.isdigit s = true.

Definition spaces (s : string) : Prop :=
  s <> "" /\ Str.all Char.isspace s = true.

(** The group of the heading pattern: a run of digits, then any number of
    groups "dot, run of digits". *)
Inductive dotted_number : string -> Prop :=
| dotted_first d : digits d -> dotted_number d
| dotted_next g d :
    dotted_number g -> digits d -> dotted_number (g ++ "." ++ d).

Definition is_dot (c : ascii) : bool := Ascii.eqb c ".".

(** The strings that can follow the first digit of the group: digits, and
    dots that a digit follows. *)
Fixpoint dotted_rest (g : string) : bool :=
  match g with
  | EmptyString => true
  | String c g' =>
      if Char.isdigit c then dotted_rest g'
      else if Ascii.eqb c "." then
        match g' with
        | String d g'' => Char.isdigit d && dotted_rest g''
        | EmptyString => false
        end
      else false
  end.

(** [text] starts with a match of the heading pattern whose group is [g]. *)
Definition heading_prefix (text g : string) : Prop :=
  dotted_number g /\
  exists ws rest, spaces ws /\ text = g ++ ws ++ rest.

(** [\d{1,2}\s+[A-Z]{3,}\s+\d{2,4}], the whole string. *)
Definition date_pattern (text : string) : Prop :=
  exists d1 w1 u w2 d2,
    text = d1 ++ w1 ++ u ++ w2 ++ d2 /\
    Str.all Char.isdigit d1 = true /\ (1 <= String.length d1 <= 2)%nat /\
    spaces w1 /\
    Str.all Char.isAZ u = true /\ (3 <= String.length u)%nat /\
    spaces w2 /\
    Str.all Char.isdigit d2 = true /\ (2 <= String.length d2 <= 4)%nat.

(** The date-like pattern as the specification words it: one or two digits,
    whitespace, three or more uppercase letters, whitespace, two to four
    digits, the whole string.  It differs from [date_pattern] by the
    uppercase letters outside A-Z. *)
Definition date_pattern_uppercase (text : string) : Prop :=
  exists d1 w1 u w2 d2,
    text = d1 ++ w1 ++ u ++ w2 ++ d2 /\
    Str.all Char.isdigit d1 = true /\ (1 <= String.length d1 <= 2)%nat /\
    spaces w1 /\
    Str.all Char.isupper u = true /\ (3 <= String.length u)%nat /\
    spaces w2 /\
    Str.all Char.isdigit d2 = true /\ (2 <= String.length d2 <= 4)%nat.

(** ** Data of the classifier *)

(** One line observation: [(text, page, size, bold)]. *)
Definition Segment : Type := string * Z * Q * bool.

Definition seg_text (seg : Segment) : string := let '(t, _, _, _) := seg in t.
Definition seg_page (seg : Segment) : Z := let '(_, p, _, _) := seg in p.
Definition seg_size (seg : Segment) : Q := let '(_, _, s, _) := seg in s.
Definition seg_bold (seg : Segment) : bool := let '(_, _, _, b) := seg in b.

(** [Heading = Dict[str, str | int]] with the keys "level", "text", "page". *)
Record Heading : Type := mkHeading
  { level : string; text : string; page : Z }.

(** [Outline]: the keys "title" and "outline". *)
Record Outline : Type := mkOutline
  { title : string; outline : list Heading }.

(** [h == last] on two headings. *)
Definition Heading_eqb (h1 h2 : Heading) : bool :=
  String.eqb (level h1) (level h2)
  && String.eqb (text h1) (text h2)
  && Z.eqb (page h1) (page h2).

Record PDFOutlineExtractor : Type := mkExtractor
  { max_pages : Z; heading_levels : Z }.

(** [PDFOutlineExtractor()] *)
Definition default_extractor : PDFOutlineExtractor :=
  {| max_pages := 50; heading_levels := 3 |}.

(** The one exception the classifier can raise on well-typed input, by
    [level_sizes[0]] on line 174; the [ValueError] of [list.index] is caught
    in [_size_to_level]. *)
Inductive exn : Type := IndexError.

Inductive pyresult (A : Type) : Type :=
| Return (a : A)
| Raise (e : exn).
Arguments Return {A} a.
Arguments Raise {A} e.

Definition bind {A B : Type} (m : pyresult A) (k : A -> pyresult B)
  : pyresult B :=
  match m with
  | Return a => k a
  | Raise e => Raise e
  end.

Notation "x <- m ;; k" := (bind m (fun x => k))
  (at level 61, m at next level, right associativity).

(** ** Built-ins on lists and dictionaries *)

(** [defaultdict(list)] keyed by font size, in insertion order;
    [d[k].append(v)] keeps the key first inserted among equal ones. *)
Definition sizedict : Type := list (Q * list string).

Fixpoint dict_append (d : sizedict) (k : Q) (v : string) : sizedict :=
  match d with
  | [] => [(k, [v])]
  | (k', vs) :: d' =>
      if Qeq_bool k' k then (k', (vs ++ [v])%list) :: d'
      else (k', vs) :: dict_append d' k v
  end.

Definition keys (d : sizedict) : list Q := map fst d.

(** [sorted(l, reverse=True)].  The sort is stable, so an element goes in
    front of the first element that is not greater than it.  On keys that
    are pairwise different every sorting algorithm returns this list. *)
Fixpoint insert_desc (x : Q) (l : list Q) : list Q :=
  match l with
  | [] => [x]
  | y :: l' => if Qle_bool y x then x :: l else y :: insert_desc x l'
  end.

Definition sorted_reverse (l : list Q) : list Q :=
  fold_right insert_desc [] l.

(** [l[:stop]]; a negative [stop] counts from the end. *)
Definition slice_to {A : Type} (l : list A) (stop : Z) : list A :=
  if stop <? 0 then firstn (Z.to_nat (Z.of_nat (List.length l) + stop)) l
  else firstn (Z.to_nat stop) l.

(** [l.index(x)], [None] for [ValueError]. *)
Fixpoint index (x : Q) (l : list Q) : option Z :=
  match l with
  | [] => None
  | y :: l' => if Qeq_bool y x then Some 0 else option_map Z.succ (index x l')
  end.

(** [l[0]] *)
Definition item0 {A : Type} (l : list A) : pyresult A :=
  match l with
  | x :: _ => Return x
  | [] => Raise IndexError
  end.

(** What [d[k].append(v)] does to the keys of a [sizedict]. *)
Definition add_key (ks : list Q) (k : Q) : list Q :=
  if existsb (fun k' => Qeq_bool k' k) ks then ks else (ks ++ [k])%list.

(** Strictly decreasing order on font sizes. *)
Definition Qgt (a b : Q) : Prop := (b < a)%Q.

(** ** The classifier *)

(** [PDFOutlineExtractor._is_valid_heading] *)
Definition _is_valid_heading (text : string) : bool :=
  if date_like text then false
  else if all_digits text then false
  else Str.any Char.isalpha text.

(** [PDFOutlineExtractor._size_to_level] *)
Definition _size_to_level (size : Q) (level_sizes : list Q) : Z :=
  match index size level_sizes with
  | Some idx => idx
  | None => -1
  end.

(** Lines 147-150: the level a numeric prefix gives. *)
Definition num_level (text : string) : Z :=
  match heading_pattern_match text with
  | Some g => Str.count "." g + 1
  | None => 0
  end.

(** Lines 147-155: the level of one line. *)
Definition resolve_level (self : PDFOutlineExtractor) (level_sizes : list Q)
    (seg : Segment) : Z :=
  let '(text, _, size, _) := seg in
  let num_level := num_level text in
  let level := _size_to_level size level_sizes in
  if (1 <=? num_level) && (num_level <=? heading_levels self)
  then num_level else level.

(** Line 159: the test a title-tier line has to pass. *)
Definition title_test (seg : Segment) : bool :=
  let '(text, page, _, bold) := seg in
  (page <=? 1)
  && (bold || Str.isupper text
      || (Z.of_nat (List.length (Str.split text)) <? 15)).

(** Lines 157-159: the lines the loop takes as title candidates. *)
Definition accepted (self : PDFOutlineExtractor) (level_sizes : list Q)
    (seg : Segment) : bool :=
  (resolve_level self level_sizes seg =? 0) && title_test seg.

(** [a or b] on strings. *)
Definition str_or (a b : string) : string :=
  if String.eqb a "" then b else a.

(** The state of the loop of lines 145-170: [(headings, title_candidate)]. *)
Definition classify_state : Type := list Heading * string.

(** One iteration of the loop of lines 145-170. *)
Definition classify_step (self : PDFOutlineExtractor) (level_sizes : list Q)
    (st : classify_state) (seg : Segment) : classify_state :=
  let '(headings, title_candidate) := st in
  let level := resolve_level self level_sizes seg in
  if level =? 0 then
    if title_test seg
    then (headings, str_or title_candidate (seg_text seg))
    else st
  else if (1 <=? level) && (level <=? heading_levels self) then
    let clean := _clean_text (seg_text seg) in
    if _is_valid_heading clean
    then ((headings
             ++ [ {| level := "H" ++ Str.of_int level;
                     text := clean;
                     page := seg_page seg |} ])%list,
          title_candidate)
    else st
  else st.

(** Lines 133-139. *)
Definition size_to_lines (flattened : list Segment) : sizedict :=
  fold_left (fun d seg => dict_append d (seg_size seg) (seg_text seg))
            flattened [].

Definition level_sizes_of (self : PDFOutlineExtractor)
    (flattened : list Segment) : list Q :=
  let unique_sizes := sorted_reverse (keys (size_to_lines flattened)) in
  slice_to unique_sizes (heading_levels self + 1).

(** Lines 141-170. *)
Definition classify (self : PDFOutlineExtractor) (level_sizes : list Q)
    (flattened : list Segment) : classify_state :=
  fold_left (classify_step self level_sizes) flattened ([], "").

(** Lines 172-176. *)
Definition title_fallback (level_sizes : list Q) (flattened : list Segment)
    (title_candidate : string) : pyresult string :=
  if String.eqb title_candidate "" then
    large_size <- item0 level_sizes ;;
    let large_candidates :=
      map seg_text
          (filter (fun seg => Qeq_bool (seg_size seg) large_size) flattened) in
    Return (match large_candidates with
            | t :: _ => t
            | [] => ""
            end)
  else Return title_candidate.

(** The text of the first line whose size is [large_size], the empty
    string when there is none. *)
Definition first_text_of_size (large_size : Q) (flattened : list Segment)
  : string :=
  match find (fun seg => Qeq_bool (seg_size seg) large_size) flattened with
  | Some seg => seg_text seg
  | None => ""
  end.

(** Lines 179-184: the state is [(deduped, last)]. *)
Definition dedup_step (st : list Heading * option Heading) (h : Heading)
  : list Heading * option Heading :=
  let '(deduped, last) := st in
  let keep := match last with
              | None => true
              | Some l => negb (Heading_eqb h l)
              end in
  (if keep then (deduped ++ [h])%list else deduped, Some h).

Definition dedup (headings : list Heading) : list Heading :=
  fst (fold_left dedup_step headings ([], None)).

(** [PDFOutlineExtractor._process_segments] *)
Definition _process_segments (self : PDFOutlineExtractor)
    (pages_data : list (list Segment)) : pyresult Outline :=
  let flattened := concat pages_data in
  match flattened with
  | [] => Return {| title := ""; outline := [] |}
  | _ :: _ =>
      let level_sizes := level_sizes_of self flattened in
      let '(headings, title_candidate) :=
        classify self level_sizes flattened in
      title_candidate <- title_fallback level_sizes flattened title_candidate ;;
      let deduped := dedup headings in
      Return {| title := _clean_text title_candidate; outline := deduped |}
  end.

(** ** Vocabulary of the further properties *)

(** No two neighbours of the list are equal. *)
Definition no_repeat {A : Type} (l : list A) : Prop :=
  forall l1 a b l2, l = (l1 ++ a :: b :: l2)%list -> a <> b.

(** [l1] is [l2] with some elements left out, the order kept. *)
Inductive subseq {A : Type} : list A -> list A -> Prop :=
| subseq_nil : subseq [] []
| subseq_skip x l1 l2 : subseq l1 l2 -> subseq l1 (x :: l2)
| subseq_take x l1 l2 : subseq l1 l2 -> subseq (x :: l1) (x :: l2).

(** The heading the loop of lines 145-170 makes of a line of level [lvl]. *)
Definition heading_of (lvl : Z) (seg : Segment) : Heading :=
  {| level := "H" ++ Str.of_int lvl;
     text := _clean_text (seg_text seg);
     page := seg_page seg |}.

(** The lines the loop of lines 145-170 turns into headings. *)
Definition heading_line (self : PDFOutlineExtractor) (level_sizes : list Q)
    (seg : Segment) : Prop :=
  1 <= resolve_level self level_sizes seg <= heading_levels self /\
  _is_valid_heading (_clean_text (seg_text seg)) = true.

(** ** The PyMuPDF backend (lines 59-93) *)

(** What the backend reads of [page.get_text("dict")]: a span has a "text",
    a "size" and a "font"; a line has "spans"; a block may have "lines"; a
    page has "blocks"; a document is a sequence of pages. *)
Record Span : Type := mkSpan
  { span_text : string; span_size : Q; span_font : string }.

Definition Line : Type := list Span.

Definition Block : Type := option (list Line).

Definition Page : Type := list Block.

Definition Doc : Type := list Page.

(** [needle in s] on strings. *)
Fixpoint contains (needle s : string) : bool :=
  String.prefix needle s
  || match s with
     | EmptyString => false
     | String _ s' => contains needle s'
     end.

(** Line 81: ["Bold" in font or "Black" in font]. *)
Definition is_bold_font (font : string) : bool :=
  contains "Bold" font || contains "Black" font.

(** [sum(bold_flags)]: [True] counts for 1. *)
Definition sum_flags (bold_flags : list bool) : Z :=
  fold_left (fun acc (b : bool) => acc + (if b then 1 else 0)) bold_flags 0.

(** [sum(bold_flags) / len(bold_flags) > 0.5] for a list that is not empty.
    The quotient of two integers below 2^53 is rounded to the nearest float
    and compares with 0.5 as the exact quotient does. *)
Definition majority (bold_flags : list bool) : bool :=
  negb (Qle_bool (sum_flags bold_flags # Pos.of_nat (List.length bold_flags))
                 (1 # 2)).

(** One iteration of the loop of lines 76-81; the state is
    [(line_text, sizes, bold_flags)]. *)
Definition span_step (st : string * list Q * list bool) (span : Span)
  : string * list Q * list bool :=
  let '(line_text, sizes, bold_flags) := st in
  let text := Str.strip (span_text span) in
  if String.eqb text "" then st
  else (line_text ++ (text ++ " "),
        (sizes ++ [span_size span])%list,
        (bold_flags ++ [is_bold_font (span_font span)])%list).

Definition is_nil {A : Type} (l : list A) : bool :=
  match l with
  | [] => true
  | _ :: _ => false
  end.

(** The error values of the backends and of [extract]; [Classifier] carries
    what [_process_segments] raised. *)
Inductive extract_exn : Type :=
| ZeroDivisionError
| ValueError
| Classifier (e : exn).

Inductive extract_result (A : Type) : Type :=
| Done (a : A)
| Failed (e : extract_exn).
Arguments Done {A} a.
Arguments Failed {A} e.

Definition of_classifier {A : Type} (r : pyresult A) : extract_result A :=
  match r with
  | Return a => Done a
  | Raise e => Failed (Classifier e)
  end.

(** What the pdfminer backend reads of a layout: a character has a [size]
    and a [fontname]; the items of a text line are characters or something
    else; a line may have a [get_text]; an element of a page may be a text
    container, which then holds lines. *)
Record LTChar : Type := mkLTChar { size : Q; fontname : string }.

Inductive LTItem : Type :=
| IsLTChar (char : LTChar)
| NotLTChar.

Record TextLine : Type := mkTextLine
  { get_text : option string; items : list LTItem }.

Definition Element : Type := option (list TextLine).

Definition PageLayout : Type := list Element.

(** [[char for char in text_line if isinstance(char, LTChar)]] *)
Definition chars_of (text_line : TextLine) : list LTChar :=
  flat_map (fun item => match item with
                        | IsLTChar char => [char]
                        | NotLTChar => []
                        end)
           (items text_line).

(** The spans the loop of lines 76-81 keeps: those whose stripped text is
    not empty. *)
Definition nonblank (span : Span) : bool :=
  negb (String.eqb (Str.strip (span_text span)) "").

(** The texts, each followed by a space, one after the other. *)
Fixpoint spaced (ts : list string) : string :=
  match ts with
  | [] => ""
  | t :: ts' => (t ++ " ") ++ spaced ts'
  end.

(** A text line of the pdfminer backend on which line 118 divides by zero:
    its stripped text is not empty and it holds no character. *)
Definition charless (text_line : TextLine) : Prop :=
  exists t, get_text text_line = Some t /\ Str.strip t <> ""
            /\ chars_of text_line = [].

(** A page layout that holds such a line in one of its text containers. *)
Definition charless_page (page_layout : PageLayout) : Prop :=
  exists lines text_line,
    In (Some lines) page_layout /\ In text_line lines /\ charless text_line.

(** The pages of a sequence are in the order of their page numbers. *)
Definition pages_ascending (pages_data : list (list Segment)) : Prop :=
  StronglySorted
    (fun segments later =>
       forall s1 s2, In s1 segments -> In s2 later ->
                     seg_page s1 < seg_page s2)
    pages_data.

Section Backends.

(** [sum(sizes) / len(sizes)] on a list of floats that is not empty.  The
    rounding of the float sum and quotient is not modelled: the average is
    any function of the sizes. *)
Variable mean : list Q -> Q.

(** Lines 72-87: the segments (none or one) of a line of page [page_num]. *)
Definition pymupdf_line (page_num : Z) (line : Line) : list Segment :=
  let '(line_text, sizes, bold_flags) :=
    fold_left span_step line ("", [], []) in
  let line_text := Str.strip line_text in
  if negb (String.eqb line_text "") && negb (is_nil sizes) then
    let avg_size := mean sizes in
    let bold := if is_nil bold_flags then false else majority bold_flags in
    [(line_text, page_num + 1, avg_size, bold)]
  else [].

(** Lines 66-87: the segments of a page. *)
Definition pymupdf_page (page_num : Z) (page : Page) : list Segment :=
  flat_map (fun block : Block =>
              match block with
              | Some lines => flat_map (pymupdf_line page_num) lines
              | None => []
              end)
           page.

(** Lines 64-90 on the pages from index [page_num] on. *)
Fixpoint pymupdf_pages (page_num : Z) (pages : list Page)
  : list (list Segment) :=
  match pages with
  | [] => []
  | page :: rest =>
      let segments := pymupdf_page page_num page in
      ((if is_nil segments then [] else [segments])
         ++ pymupdf_pages (page_num + 1) rest)%list
  end.

(** The pages [range(min(len(doc), self.max_pages))] visits. *)
Definition scanned_pages (self : PDFOutlineExtractor) (doc : Doc) : list Page :=
  firstn (Z.to_nat (Z.min (Z.of_nat (List.length doc)) (max_pages self))) doc.

(** [PDFOutlineExtractor._extract_with_pymupdf], on the opened document. *)
Definition _extract_with_pymupdf (self : PDFOutlineExtractor) (doc : Doc)
  : pyresult Outline :=
  let pages_data := pymupdf_pages 0 (scanned_pages self doc) in
  _process_segments self pages_data.

(** Lines 106-119: the segments (none or one) of a text line. *)
Definition pdfminer_line (page_num : Z) (text_line : TextLine)
  : extract_result (list Segment) :=
  match get_text text_line with
  | None => Done []
  | Some t =>
      let line_text := Str.strip t in
      if String.eqb line_text "" then Done []
      else
        let chars := chars_of text_line in
        let sizes := if is_nil chars then [0#1] else map size chars in
        let bold_flags :=
          map (fun char => is_bold_font (fontname char)) chars in
        let avg_size := mean sizes in
        if is_nil bold_flags then Failed ZeroDivisionError
        else Done [(line_text, page_num + 1, avg_size, majority bold_flags)]
  end.

Fixpoint pdfminer_lines (page_num : Z) (lines : list TextLine)
  : extract_result (list Segment) :=
  match lines with
  | [] => Done []
  | text_line :: rest =>
      match pdfminer_line page_num text_line with
      | Failed e => Failed e
      | Done segs =>
          match pdfminer_lines page_num rest with
          | Failed e => Failed e
          | Done more => Done (segs ++ more)%list
          end
      end
  end.

(** Lines 102-119: the segments of a page layout. *)
Fixpoint pdfminer_page (page_num : Z) (page_layout : PageLayout)
  : extract_result (list Segment) :=
  match page_layout with
  | [] => Done []
  | element :: rest =>
      match (match element with
             | Some lines => pdfminer_lines page_num lines
             | None => Done []
             end) with
      | Failed e => Failed e
      | Done segs =>
          match pdfminer_page page_num rest with
          | Failed e => Failed e
          | Done more => Done (segs ++ more)%list
          end
      end
  end.

(** Lines 99-121 on the layouts [extract_pages] yields, numbered from
    [page_num] on. *)
Fixpoint pdfminer_pages (page_num : Z) (layouts : list PageLayout)
  : extract_result (list (list Segment)) :=
  match layouts with
  | [] => Done []
  | page_layout :: rest =>
      match pdfminer_page page_num page_layout with
      | Failed e => Failed e
      | Done segments =>
          match pdfminer_pages (page_num + 1) rest with
          | Failed e => Failed e
          | Done more =>
              Done ((if is_nil segments then [] else [segments]) ++ more)%list
          end
      end
  end.

(** [PDFOutlineExtractor._extract_with_pdfminer], on the layouts that
    [extract_pages] yields for the first [max_pages] pages. *)
Definition _extract_with_pdfminer (self : PDFOutlineExtractor)
    (layouts : list PageLayout) : extract_result Outline :=
  match pdfminer_pages 0 layouts with
  | Failed e => Failed e
  | Done pages_data => of_classifier (_process_segments self pages_data)
  end.

(** The segment comes from the text line: its text is the stripped text of
    the line and its size the average of the sizes of the characters of the
    line, of which there is at least one. *)
Definition from_text_line (text_line : TextLine) (seg : Segment) : Prop :=
  (exists t, get_text text_line = Some t /\ seg_text seg = Str.strip t) /\
  seg_text seg <> "" /\
  chars_of text_line <> [] /\
  seg_size seg = mean (map size (chars_of text_line)).

Definition from_layout (page_layout : PageLayout) (seg : Segment) : Prop :=
  exists lines text_line,
    In (Some lines) page_layout /\ In text_line lines /\
    from_text_line text_line seg.

(** A file as [extract] sees it: what [fitz.open] gives and what
    [extract_pages] yields. *)
Record PdfFile : Type := mkPdfFile
  { fitz_open : Doc; extract_pages : list PageLayout }.

(** [PDFOutlineExtractor.extract]; [pdf_path] is [None] when
    [pdf_path.exists()] is false. *)
Definition extract (HAS_PYMUPDF : bool) (self : PDFOutlineExtractor)
    (pdf_path : option PdfFile) : extract_result Outline :=
  match pdf_path with
  | None => Failed ValueError
  | Some file =>
      if HAS_PYMUPDF
      then of_classifier (_extract_with_pymupdf self (fitz_open file))
      else _extract_with_pdfminer self (extract_pages file)
  end.

End Backends.

(** The average without rounding, for the examples. *)
Definition exact_mean (sizes : list Q) : Q :=
  (fold_left Qplus sizes (0#1) / inject_Z (Z.of_nat (List.length sizes)))%Q.

(** * Properties *)

Example clean_ex : _clean_text (" a  b" ++ String "010" " c ") = "a b c".
Proof. reflexivity. Qed.

Example process_ex :
  _process_segments default_extractor
    [[("Project  Proposal", 1, 20#1, true); ("1 Intro", 1, 12#1, false);
      ("2.1 Background", 2, 21#2, false); ("body text", 2, 10#1, false);
      ("18 JUNE 2013", 2, 16#1, false); ("Overview", 2, 16#1, false);
      ("Overview", 2, 16#1, false)]]
  = Return {| title := "Project Proposal";
              outline := [ mkHeading "H1" "1 Intro" 1;
                           mkHeading "H2" "2.1 Background" 2;
                           mkHeading "H1" "Overview" 2 ] |}.
Proof. vm_compute. reflexivity. Qed.

(** A bold "Project Proposal" on page 1 at the largest size is the title; a
    line of fifteen words that is neither bold nor upper-case is not taken
    as a candidate, and the fallback then returns it as the first line of
    the largest size. *)
Example title_acceptance_ex :
  let long : Segment :=
    ("one two three four five six seven eight nine ten "
       ++ "eleven twelve thirteen fourteen fifteen",
     1, 20#1, false) in
  _process_segments default_extractor
    [[("Project Proposal", 1, 20#1, true); ("text", 1, 10#1, false)]]
  = Return {| title := "Project Proposal";
              outline := [ mkHeading "H1" "text" 1 ] |} /\
  title_test long = false /\
  snd (classify default_extractor [20#1; 10#1]
         [long; ("Project Proposal", 1, 20#1, true)]) = "Project Proposal".
Proof. repeat split. Qed.

(** [heading_levels = -1] empties the table, and line 174 then raises. *)
Example negative_heading_levels_ex :
  _process_segments {| max_pages := 50; heading_levels := -1 |}
    [[("text", 2, 10#1, false)]]
  = Raise IndexError.
Proof. reflexivity. Qed.

(** ** Whitespace cleaning *)

Section Cleaning.

Lemma sub_ws_from_squeezed (s : string) :
  forall in_run,
    squeezed (Str.sub_ws_from in_run s) /\
    (in_run = true ->
     Str.starts_with Char.isspace (Str.sub_ws_from in_run s) = false).
Proof.
  induction s as [|c s IH]; intros in_run; simpl.
  - split; [exact I | reflexivity].
  - destruct (Char.isspace c) eqn:Hc.
    + destruct in_run.
      * apply IH.
      * split; [|discriminate].
        simpl. split; [|apply IH].
        intros _. split; [reflexivity|]. now apply IH.
    + split.
      * simpl. split; [intros; congruence | apply IH].
      * intros _. simpl. exact Hc.
Qed.

Lemma lstrip_squeezed (s : string) : squeezed s -> squeezed (Str.lstrip s).
Proof.
  induction s as [|c s IH]; simpl; [trivial|].
  intros [Hc Hs]. destruct (Char.isspace c) eqn:Hsp; [now apply IH|].
  simpl. split; [intros; congruence | exact Hs].
Qed.

Lemma lstrip_starts (s : string) :
  Str.starts_with Char.isspace (Str.lstrip s) = false.
Proof.
  induction s as [|c s IH]; simpl; [reflexivity|].
  destruct (Char.isspace c) eqn:Hc; [exact IH | exact Hc].
Qed.

Lemma lstrip_id (s : string) :
  Str.starts_with Char.isspace s = false -> Str.lstrip s = s.
Proof. destruct s as [|c s]; simpl; [reflexivity|]. now intros ->. Qed.

Lemma rstrip_starts (s : string) :
  Str.starts_with Char.isspace s = false ->
  Str.starts_with Char.isspace (Str.rstrip s) = false.
Proof.
  destruct s as [|c s]; simpl; [reflexivity|]. intros Hc.
  destruct (Str.rstrip s); simpl; [now rewrite Hc | exact Hc].
Qed.

Lemma rstrip_squeezed (s : string) : squeezed s -> squeezed (Str.rstrip s).
Proof.
  induction s as [|c s IH]; simpl; [trivial|].
  intros [Hc Hs]. specialize (IH Hs).
  destruct (Str.rstrip s) as [|c' r] eqn:Hr.
  - destruct (Char.isspace c) eqn:Hsp; simpl; [trivial|].
    split; [intros; congruence | trivial].
  - change (squeezed (String c (String c' r))).
    cbn [squeezed]. split; [|exact IH].
    intros H. destruct (Hc H) as [-> Hst]. split; [reflexivity|].
    rewrite <- Hr. now apply rstrip_starts.
Qed.

Lemma rstrip_idem (s : string) : Str.rstrip (Str.rstrip s) = Str.rstrip s.
Proof.
  induction s as [|c s IH]; simpl; [reflexivity|].
  destruct (Str.rstrip s) as [|c' r] eqn:Hr.
  - destruct (Char.isspace c) eqn:Hc; simpl; [reflexivity|].
    now rewrite Hc.
  - change (Str.rstrip (String c (String c' r))) with
      (match Str.rstrip (String c' r) with
       | EmptyString =>
           if Char.isspace c then EmptyString else String c EmptyString
       | r0 => String c r0
       end).
    now rewrite IH.
Qed.

(** Replacing the whitespace runs of a squeezed string changes nothing. *)
Lemma sub_ws_from_squeezed_id (s : string) :
  squeezed s ->
  forall in_run,
    (in_run = true -> Str.starts_with Char.isspace s = false) ->
    Str.sub_ws_from in_run s = s.
Proof.
  induction s as [|c s IH]; simpl; [reflexivity|].
  intros [Hc Hs] in_run Hrun.
  destruct (Char.isspace c) eqn:Hsp.
  - destruct in_run; [now specialize (Hrun eq_refl)|].
    destruct (Hc eq_refl) as [-> Hst].
    f_equal. apply IH; auto.
  - f_equal. apply IH; auto. discriminate.
Qed.

Lemma clean_text_squeezed (s : string) : squeezed (_clean_text s).
Proof.
  unfold _clean_text, Str.strip, Str.sub_ws.
  apply rstrip_squeezed, lstrip_squeezed, sub_ws_from_squeezed.
Qed.

Lemma clean_text_starts (s : string) :
  Str.starts_with Char.isspace (_clean_text s) = false.
Proof.
  unfold _clean_text, Str.strip. apply rstrip_starts, lstrip_starts.
Qed.

Lemma clean_text_fixpoint (t : string) :
  squeezed t -> Str.starts_with Char.isspace t = false ->
  Str.rstrip t = t -> _clean_text t = t.
Proof.
  intros Hsq Hst Hr. unfold _clean_text, Str.strip, Str.sub_ws.
  rewrite sub_ws_from_squeezed_id by (auto; discriminate).
  now rewrite lstrip_id.
Qed.

End Cleaning.

(** C8. [_clean_text] is idempotent: cleaning a cleaned string returns it
    unchanged; a string that is already clean (squeezed, with no whitespace
    at either end) is returned as it is; and cleaning "Intro   duction"
    followed by a newline gives "Intro duction". *)
Theorem clean_text_idempotent :
  (forall s, _clean_text (_clean_text s) = _clean_text s) /\
  (forall t, squeezed t -> Str.strip t = t -> _clean_text t = t) /\
  _clean_text ("Intro   duction" ++ String "010" "") = "Intro duction".
Proof.
  split; [|split].
  - intros s. apply clean_text_fixpoint.
    + apply clean_text_squeezed.
    + apply clean_text_starts.
    + unfold _clean_text, Str.strip. apply rstrip_idem.
  - intros t Hsq Hstrip.
    assert (Hst : Str.starts_with Char.isspace t = false).
    { rewrite <- Hstrip. unfold Str.strip. apply rstrip_starts, lstrip_starts. }
    apply clean_text_fixpoint; auto.
    unfold Str.strip in Hstrip. now rewrite lstrip_id in Hstrip.
  - reflexivity.
Qed.

Lemma clean_text_idempotent_witness :
  squeezed "Intro duction" /\
  Str.strip "Intro duction" = "Intro duction" /\
  _clean_text "Intro duction" = "Intro duction".
Proof.
  assert (Hsq : squeezed "Intro duction").
  { simpl. repeat split; try reflexivity; discriminate. }
  split; [exact Hsq|]. split; [reflexivity|].
  apply (proj1 (proj2 clean_text_idempotent)); [exact Hsq | reflexivity].
Defined.

(** ** Empty input *)

(** C7. When the flattened observation sequence is empty, that is when
    there is no page or no page holds an observation, the classifier returns
    the outline with the empty title and no heading, and raises nothing. *)
Theorem process_segments_empty (self : PDFOutlineExtractor)
    (pages_data : list (list Segment)) :
  concat pages_data = [] ->
  Forall (fun pg => pg = []) pages_data /\
  _process_segments self pages_data = Return {| title := ""; outline := [] |}.
Proof.
  intros Hflat. split.
  - induction pages_data as [|pg pgs IH]; [constructor|].
    simpl in Hflat. apply app_eq_nil in Hflat as [Hpg Hpgs].
    constructor; [exact Hpg | now apply IH].
  - unfold _process_segments. now rewrite Hflat.
Qed.

Lemma process_segments_empty_witness :
  concat ([[]; []] : list (list Segment)) = [] /\
  _process_segments default_extractor [] = Return (mkOutline "" []) /\
  _process_segments default_extractor [[]; []] = Return (mkOutline "" []).
Proof.
  split; [reflexivity|]. split; [reflexivity|].
  apply (process_segments_empty default_extractor [[]; []]). reflexivity.
Defined.

(** ** Deduplication *)

Section Dedup.

Lemma Heading_eqb_spec (h1 h2 : Heading) :
  reflect (h1 = h2) (Heading_eqb h1 h2).
Proof.
  destruct h1 as [l1 t1 p1], h2 as [l2 t2 p2]. unfold Heading_eqb; simpl.
  destruct (String.eqb_spec l1 l2) as [->|Hl]; simpl;
    [|constructor; congruence].
  destruct (String.eqb_spec t1 t2) as [->|Ht]; simpl;
    [|constructor; congruence].
  destruct (Z.eqb_spec p1 p2) as [->|Hp]; constructor; congruence.
Qed.

Lemma dedup_step_last st h : snd (dedup_step st h) = Some h.
Proof. now destruct st. Qed.

Lemma dedup_fold_snoc l h st :
  fold_left dedup_step (l ++ [h]) st
  = dedup_step (fold_left dedup_step l st) h.
Proof. now rewrite fold_left_app. Qed.

Lemma dedup_fold_last l h st :
  snd (fold_left dedup_step (l ++ [h]) st) = Some h.
Proof. rewrite dedup_fold_snoc. apply dedup_step_last. Qed.

Lemma dedup_snoc2 l a b :
  dedup (l ++ [a; b])
  = (dedup (l ++ [a]) ++ (if Heading_eqb b a then [] else [b]))%list.
Proof.
  unfold dedup.
  change (l ++ [a; b])%list with (l ++ [a] ++ [b])%list.
  rewrite app_assoc, dedup_fold_snoc.
  pose proof (dedup_fold_last l a ([], None)) as Hlast.
  destruct (fold_left dedup_step (l ++ [a]) ([], None)) as [deduped last].
  simpl in Hlast. subst last. simpl.
  destruct (Heading_eqb b a); simpl; [now rewrite app_nil_r | reflexivity].
Qed.

Lemma dedup_no_repeat l :
  (forall l1 a b l2, l = (l1 ++ a :: b :: l2)%list -> a <> b) ->
  dedup l = l.
Proof.
  induction l as [|b l IH] using rev_ind; intros Hne; [reflexivity|].
  destruct l as [|a l] using rev_ind; [reflexivity|]. clear IHl.
  rewrite <- app_assoc. simpl. rewrite dedup_snoc2.
  rewrite IH.
  - destruct (Heading_eqb_spec b a) as [->|_].
    + exfalso. apply (Hne l a a []); [|reflexivity].
      now rewrite <- app_assoc.
    + now rewrite <- app_assoc.
  - intros l1 x y l2 Heq. apply (Hne l1 x y (l2 ++ [b])%list).
    rewrite Heq, <- !app_assoc. reflexivity.
Qed.

End Dedup.

(** ** The regular expressions *)

Ltac by_cases c :=
  destruct c as [[] [] [] [] [] [] [] []]; vm_compute;
  try reflexivity; try discriminate; auto.

Section Patterns.

Lemma space_not_digit c : Char.isspace c = true -> Char.isdigit c = false.
Proof. by_cases c. Qed.

Lemma space_not_AZ c : Char.isspace c = true -> Char.isAZ c = false.
Proof. by_cases c. Qed.

Lemma AZ_not_space c : Char.isAZ c = true -> Char.isspace c = false.
Proof. by_cases c. Qed.

Lemma digit_not_space c : Char.isdigit c = true -> Char.isspace c = false.
Proof. by_cases c. Qed.

Lemma digit_not_alpha c : Char.isdigit c = true -> Char.isalpha c = false.
Proof. by_cases c. Qed.

Lemma space_not_dot c : Char.isspace c = true -> Ascii.eqb c "." = false.
Proof. by_cases c. Qed.

Lemma app_assoc_s (a b c : string) : (a ++ b) ++ c = a ++ b ++ c.
Proof. induction a as [|x a IH]; simpl; [reflexivity | now rewrite IH]. Qed.

Lemma app_nil_r_s (a : string) : a ++ "" = a.
Proof. induction a as [|x a IH]; simpl; [reflexivity | now rewrite IH]. Qed.

Lemma length_app_s (a b : string) :
  String.length (a ++ b) = (String.length a + String.length b)%nat.
Proof. induction a as [|x a IH]; simpl; [reflexivity | now rewrite IH]. Qed.

Lemma all_app p (a b : string) :
  Str.all p (a ++ b) = Str.all p a && Str.all p b.
Proof.
  induction a as [|x a IH]; simpl; [reflexivity|].
  now rewrite IH, andb_assoc.
Qed.

Lemma span_spec p s a r :
  Str.span p s = (a, r) ->
  s = a ++ r /\ Str.all p a = true /\ Str.starts_with p r = false.
Proof.
  revert a r. induction s as [|c s IH]; simpl; intros a r H.
  - now inversion H.
  - destruct (p c) eqn:Hc.
    + destruct (Str.span p s) as [a' r'] eqn:Hs. inversion H; subst.
      destruct (IH _ _ eq_refl) as (-> & Ha & Hr).
      simpl. now rewrite Hc.
    + inversion H; subst. simpl. now rewrite Hc.
Qed.

Lemma span_app p a r :
  Str.all p a = true -> Str.starts_with p r = false ->
  Str.span p (a ++ r) = (a, r).
Proof.
  induction a as [|c a IH]; simpl; intros Ha Hr.
  - destruct r as [|c r]; simpl in *; [reflexivity | now rewrite Hr].
  - apply andb_true_iff in Ha as [-> Ha]. now rewrite IH.
Qed.

Lemma starts_with_app p q (a b : string) :
  a <> "" -> Str.all q a = true ->
  (forall c, q c = true -> p c = false) ->
  Str.starts_with p (a ++ b) = false.
Proof.
  destruct a as [|c a]; [congruence|]. simpl. intros _ Ha Hpq.
  apply andb_true_iff in Ha as [Hc _]. now apply Hpq.
Qed.

Lemma length_pos_nonempty (s : string) :
  (1 <= String.length s)%nat <-> s <> "".
Proof. destruct s; simpl; split; (congruence || lia). Qed.

(** [date_like] decides the language of the date pattern. *)
Lemma date_like_correct text : date_like text = true <-> date_pattern text.
Proof.
  unfold date_like, date_pattern, spaces. split.
  - destruct (Str.span Char.isdigit text) as [d1 r1] eqn:H1.
    destruct (Str.span Char.isspace r1) as [w1 r2] eqn:H2.
    destruct (Str.span Char.isAZ r2) as [u r3] eqn:H3.
    destruct (Str.span Char.isspace r3) as [w2 r4] eqn:H4.
    destruct (Str.span Char.isdigit r4) as [d2 r5] eqn:H5.
    apply span_spec in H1 as (-> & Hd1 & _).
    apply span_spec in H2 as (-> & Hw1 & _).
    apply span_spec in H3 as (-> & Hu & _).
    apply span_spec in H4 as (-> & Hw2 & _).
    apply span_spec in H5 as (-> & Hd2 & _).
    rewrite !andb_true_iff, !Nat.leb_le, String.eqb_eq.
    intros (((((((L1 & L2) & L3) & L4) & L5) & L6) & L7) & ->).
    exists d1, w1, u, w2, d2. rewrite app_nil_r_s.
    rewrite <- !length_pos_nonempty. auto 15.
  - intros (d1 & w1 & u & w2 & d2 & -> & Hd1 & L1 & [N1 Hw1] & Hu & L3
            & [N2 Hw2] & Hd2 & L5).
    assert (Nu : u <> "") by (apply length_pos_nonempty; lia).
    assert (Nd2 : d2 <> "") by (apply length_pos_nonempty; lia).
    rewrite (span_app _ d1) by
      (auto; apply (starts_with_app _ Char.isspace);
       auto using space_not_digit).
    rewrite (span_app _ w1) by
      (auto; apply (starts_with_app _ Char.isAZ); auto using AZ_not_space).
    rewrite (span_app _ u) by
      (auto; apply (starts_with_app _ Char.isspace); auto using space_not_AZ).
    rewrite (span_app _ w2) by
      (auto; rewrite <- (app_nil_r_s d2);
       apply (starts_with_app _ Char.isdigit); auto using digit_not_space).
    rewrite <- (app_nil_r_s d2) at 1.
    rewrite (span_app _ d2) by auto.
    apply length_pos_nonempty in N1, N2.
    rewrite !andb_true_iff, !Nat.leb_le, String.eqb_eq. repeat split; lia.
Qed.

(** [all_digits] decides the language of the all-digit pattern. *)
Lemma all_digits_correct text : all_digits text = true <-> digits text.
Proof.
  unfold all_digits, digits.
  rewrite andb_true_iff, negb_true_iff, String.eqb_neq. tauto.
Qed.

Lemma any_alpha_spec text :
  Str.any Char.isalpha text = true <->
  exists a c b, text = a ++ String c b /\ Char.isalpha c = true.
Proof.
  induction text as [|x t IH]; simpl.
  - split; [discriminate|]. intros (a & c & b & H & _).
    destruct a; discriminate.
  - rewrite orb_true_iff, IH. split.
    + intros [Hx|(a & c & b & -> & Hc)].
      * now exists "", x, t.
      * now exists (String x a), c, b.
    + intros (a & c & b & H & Hc). destruct a as [|y a]; simpl in H.
      * inversion H; subst. now left.
      * inversion H; subst. right. now exists a, c, b.
Qed.

End Patterns.

Section HeadingPattern.

Lemma digit_not_dot c : Char.isdigit c = true -> Ascii.eqb c "." = false.
Proof. by_cases c. Qed.

Lemma digits_snoc d c :
  digits d -> Char.isdigit c = true -> digits (d ++ String c "").
Proof.
  intros [Hne Hall] Hc. split.
  - destruct d; discriminate.
  - rewrite all_app, Hall. simpl. now rewrite Hc.
Qed.

Lemma dotted_snoc_digit p c :
  dotted_number p -> Char.isdigit c = true ->
  dotted_number (p ++ String c "").
Proof.
  intros Hp Hc. destruct Hp as [d Hd|g d Hg Hd].
  - apply dotted_first. now apply digits_snoc.
  - rewrite !app_assoc_s. apply dotted_next; [exact Hg|].
    now apply digits_snoc.
Qed.

Lemma dotted_tail_sound n :
  forall s, (String.length s <= n)%nat ->
  forall g r, dotted_tail s = (g, r) ->
  s = g ++ r /\ forall pre, dotted_number pre -> dotted_number (pre ++ g).
Proof.
  induction n as [|n IH]; intros s Hlen g r H.
  - destruct s; [|simpl in Hlen; lia]. inversion H; subst.
    split; [reflexivity|]. intros pre. now rewrite app_nil_r_s.
  - destruct s as [|c s]; simpl in H.
    { inversion H; subst. split; [reflexivity|].
      intros pre. now rewrite app_nil_r_s. }
    simpl in Hlen. destruct (Char.isdigit c) eqn:Hc.
    + destruct (dotted_tail s) as [g1 r1] eqn:Ht. inversion H; subst.
      destruct (IH s ltac:(lia) _ _ Ht) as [-> Hpre].
      split; [reflexivity|]. intros pre Hp.
      change (String c g1) with (String c "" ++ g1).
      rewrite <- app_assoc_s. apply Hpre. now apply dotted_snoc_digit.
    + destruct (Ascii.eqb_spec c ".") as [->|Hdot].
      * destruct s as [|d s].
        { inversion H; subst. split; [reflexivity|].
          intros pre. now rewrite app_nil_r_s. }
        destruct (Char.isdigit d) eqn:Hd.
        -- destruct (dotted_tail s) as [g1 r1] eqn:Ht. inversion H; subst.
           simpl in Hlen.
           destruct (IH s ltac:(lia) _ _ Ht) as [-> Hpre].
           split; [reflexivity|]. intros pre Hp.
           change (String "." (String d g1))
             with (("." ++ String d "") ++ g1).
           rewrite <- app_assoc_s. apply Hpre.
           apply dotted_next; [exact Hp|].
           split; [discriminate|]. simpl. now rewrite Hd.
        -- inversion H; subst. split; [reflexivity|].
           intros pre. now rewrite app_nil_r_s.
      * inversion H; subst. split; [reflexivity|].
        intros pre. now rewrite app_nil_r_s.
Qed.

Lemma dotted_tail_complete n :
  forall g, (String.length g <= n)%nat -> dotted_rest g = true ->
  forall r,
    Str.starts_with Char.isdigit r = false ->
    Str.starts_with is_dot r = false ->
    dotted_tail (g ++ r) = (g, r).
Proof.
  induction n as [|n IH]; intros g Hlen Hg r Hr1 Hr2.
  - destruct g; [|simpl in Hlen; lia]. simpl.
    destruct r as [|c r]; simpl in *; [reflexivity|].
    unfold is_dot in Hr2. now rewrite Hr1, Hr2.
  - destruct g as [|c g]; simpl in *.
    { destruct r as [|c r]; simpl in *; [reflexivity|].
      unfold is_dot in Hr2. now rewrite Hr1, Hr2. }
    destruct (Char.isdigit c) eqn:Hc.
    + now rewrite (IH g ltac:(lia) Hg r Hr1 Hr2).
    + destruct (Ascii.eqb c "."); [|discriminate].
      destruct g as [|d g]; [discriminate|]. simpl in *.
      apply andb_true_iff in Hg as [Hd Hg]. rewrite Hd.
      now rewrite (IH g ltac:(lia) Hg r Hr1 Hr2).
Qed.

Lemma all_digits_rest d : Str.all Char.isdigit d = true -> dotted_rest d = true.
Proof.
  induction d as [|c d IH]; simpl; [reflexivity|].
  intros H. apply andb_true_iff in H as [-> H]. now apply IH.
Qed.

Lemma dotted_rest_app n :
  forall a b, (String.length a <= n)%nat ->
  dotted_rest a = true -> dotted_rest b = true -> dotted_rest (a ++ b) = true.
Proof.
  induction n as [|n IH]; intros a b Hlen Ha Hb.
  - destruct a; [exact Hb | simpl in Hlen; lia].
  - destruct a as [|c a]; [exact Hb|]. simpl in *.
    destruct (Char.isdigit c).
    + apply IH; auto. lia.
    + destruct (Ascii.eqb c "."); [|discriminate].
      destruct a as [|d a]; [discriminate|]. simpl in *.
      apply andb_true_iff in Ha as [-> Ha]. simpl. apply IH; auto. lia.
Qed.

Lemma dotted_number_shape g :
  dotted_number g ->
  exists c g', g = String c g' /\ Char.isdigit c = true
               /\ dotted_rest g' = true.
Proof.
  induction 1 as [d [Hne Hd]|g d Hg (c & g' & -> & Hc & Hg') [Hne Hd]].
  - destruct d as [|c d]; [congruence|]. simpl in Hd.
    apply andb_true_iff in Hd as [Hc Hd].
    exists c, d. auto using all_digits_rest.
  - exists c, (g' ++ "." ++ d). repeat split; auto.
    apply (dotted_rest_app (String.length g')); auto.
    destruct d as [|x d]; [congruence|]. simpl in *.
    apply andb_true_iff in Hd as [-> Hd]. now apply all_digits_rest.
Qed.

(** [heading_pattern_match] returns the group of the one way the heading
    pattern can match at the start of [text]. *)
Lemma heading_pattern_match_correct text g :
  heading_pattern_match text = Some g <-> heading_prefix text g.
Proof.
  unfold heading_pattern_match, heading_prefix. split.
  - destruct text as [|c s]; [discriminate|].
    destruct (Char.isdigit c) eqn:Hc; [|discriminate].
    destruct (dotted_tail s) as [g1 r] eqn:Ht.
    destruct (Str.starts_with Char.isspace r) eqn:Hr; [|discriminate].
    intros H; inversion H; subst.
    destruct (dotted_tail_sound _ s (le_n _) _ _ Ht) as [-> Hpre].
    split.
    + apply (Hpre (String c "")). apply dotted_first.
      split; [discriminate|]. simpl. now rewrite Hc.
    + destruct r as [|w r]; [discriminate|]. simpl in Hr.
      exists (String w ""), r. split; [|reflexivity].
      split; [discriminate|]. simpl. now rewrite Hr.
  - intros [Hg (ws & rest & [Hne Hws] & ->)].
    destruct (dotted_number_shape g Hg) as (c & g' & -> & Hc & Hg').
    simpl. rewrite Hc.
    rewrite (dotted_tail_complete _ g' (le_n _) Hg').
    + destruct ws as [|w ws]; [congruence|]. simpl in *.
      apply andb_true_iff in Hws as [-> _]. reflexivity.
    + apply (starts_with_app _ Char.isspace); auto using space_not_digit.
    + apply (starts_with_app _ Char.isspace); auto.
      exact space_not_dot.
Qed.

End HeadingPattern.

(** ** Level of one line *)

Section Levels.

Lemma index_Some x l i :
  index x l = Some i ->
  exists n y,
    i = Z.of_nat n /\ nth_error l n = Some y /\ y == x /\
    forall m z, (m < n)%nat -> nth_error l m = Some z -> ~ z == x.
Proof.
  revert i. induction l as [|y l IH]; simpl; intros i H; [discriminate|].
  destruct (Qeq_bool y x) eqn:Hy.
  - inversion H; subst. exists 0%nat, y. repeat split; auto.
    + now apply Qeq_bool_iff.
    + intros m z Hm. lia.
  - destruct (index x l) as [j|]; [|discriminate]. simpl in H.
    inversion H; subst.
    destruct (IH j eq_refl) as (n & z & -> & Hn & Hz & Hfirst).
    exists (S n), z. repeat split; auto.
    + lia.
    + intros [|m] w Hm Hw; simpl in Hw.
      * inversion Hw; subst. now apply Qeq_bool_neq.
      * apply (Hfirst m w); auto. lia.
Qed.

Lemma index_None x l :
  index x l = None -> forall y, In y l -> ~ y == x.
Proof.
  induction l as [|z l IH]; simpl; intros H y Hy; [contradiction|].
  destruct (Qeq_bool z x) eqn:Hz; [discriminate|].
  destruct (index x l); [discriminate|].
  destruct Hy as [->|Hy]; [now apply Qeq_bool_neq | now apply IH].
Qed.

Lemma num_level_match text g :
  heading_prefix text g -> num_level text = 1 + Str.count "." g.
Proof.
  intros H. apply heading_pattern_match_correct in H.
  unfold num_level. rewrite H. lia.
Qed.

Lemma num_level_no_match text :
  (forall g, ~ heading_prefix text g) -> num_level text = 0.
Proof.
  intros H. unfold num_level.
  destruct (heading_pattern_match text) as [g|] eqn:Hm; [|reflexivity].
  apply heading_pattern_match_correct in Hm. now apply H in Hm.
Qed.

Lemma num_level_cases text :
  (exists g, heading_prefix text g /\ num_level text = 1 + Str.count "." g)
  \/ ((forall g, ~ heading_prefix text g) /\ num_level text = 0).
Proof.
  destruct (heading_pattern_match text) as [g|] eqn:Hm.
  - left. exists g. apply heading_pattern_match_correct in Hm.
    auto using num_level_match.
  - right.
    assert (H : forall g, ~ heading_prefix text g).
    { intros g Hg. apply heading_pattern_match_correct in Hg. congruence. }
    auto using num_level_no_match.
Qed.

End Levels.

(** C1. The level the classifier gives a line is its numeric level when that
    is between 1 and [heading_levels], and its size level otherwise.  The
    numeric level is 1 plus the number of dots of the digits-and-dots group
    the heading pattern matches at the start of the raw text, and 0 when the
    pattern does not match; the size level is the first index of the line's
    font size in the level size table, and -1 when the table does not hold
    it.  With the default three heading levels, "2.1 Background" at a size
    of index 3 gets level 2. *)
Theorem resolve_level_numeric_override (self : PDFOutlineExtractor)
    (level_sizes : list Q) (text : string) (page : Z) (size : Q)
    (bold : bool) :
  exists numericLevel sizeLevel : Z,
    ((exists g, heading_prefix text g /\ numericLevel = 1 + Str.count "." g)
     \/ ((forall g, ~ heading_prefix text g) /\ numericLevel = 0)) /\
    (forall g, heading_prefix text g -> numericLevel = 1 + Str.count "." g) /\
    ((exists n y,
         nth_error level_sizes n = Some y /\ y == size /\
         (forall m z, (m < n)%nat -> nth_error level_sizes m = Some z ->
                      ~ z == size) /\
         sizeLevel = Z.of_nat n)
     \/ ((forall y, In y level_sizes -> ~ y == size) /\ sizeLevel = -1)) /\
    resolve_level self level_sizes (text, page, size, bold)
    = (if (1 <=? numericLevel) && (numericLevel <=? heading_levels self)
       then numericLevel else sizeLevel) /\
    (heading_levels self = 3 ->
     _size_to_level size level_sizes = 3 ->
     resolve_level self level_sizes ("2.1 Background", page, size, bold) = 2).
Proof.
  exists (num_level text), (_size_to_level size level_sizes).
  split; [apply num_level_cases|].
  split; [intros g; apply num_level_match|].
  split; [|split; [reflexivity|]].
  - unfold _size_to_level. destruct (index size level_sizes) as [i|] eqn:Hi.
    + left. destruct (index_Some _ _ _ Hi) as (n & y & -> & Hn & Hy & Hfirst).
      now exists n, y.
    + right. split; [|reflexivity]. now apply index_None.
  - intros Hh Hsize. unfold resolve_level. rewrite Hh, Hsize. reflexivity.
Qed.

Lemma resolve_level_numeric_override_witness :
  let level_sizes := [20#1; 16#1; 14#1; 12#1] in
  _size_to_level (12#1) level_sizes = 3 /\
  resolve_level default_extractor level_sizes
    ("2.1 Background", 4, 12#1, false) = 2 /\
  resolve_level default_extractor level_sizes
    ("Background", 4, 12#1, false) = 3.
Proof.
  intros level_sizes. split; [reflexivity|]. split; [|reflexivity].
  destruct (resolve_level_numeric_override default_extractor level_sizes
              "2.1 Background" 4 (12#1) false)
    as (numericLevel & sizeLevel & _ & _ & _ & _ & Hex).
  apply Hex; reflexivity.
Defined.

(** ** The level size table *)

Section LevelSizes.

Lemma keys_dict_append d k v :
  keys (dict_append d k v) = add_key (keys d) k.
Proof.
  unfold add_key. induction d as [|[k' vs] d IH]; simpl; [reflexivity|].
  destruct (Qeq_bool k' k); simpl; [reflexivity|].
  unfold keys in *. rewrite IH.
  now destruct (existsb _ (map fst d)).
Qed.

Lemma keys_fold l :
  forall d,
    keys (fold_left (fun d seg => dict_append d (seg_size seg) (seg_text seg))
                    l d)
    = fold_left add_key (map seg_size l) (keys d).
Proof.
  induction l as [|seg l IH]; intros d; simpl; [reflexivity|].
  now rewrite IH, keys_dict_append.
Qed.

Lemma keys_size_to_lines flattened :
  keys (size_to_lines flattened)
  = fold_left add_key (map seg_size flattened) [].
Proof. unfold size_to_lines. now rewrite keys_fold. Qed.

Lemma existsb_InA ks k :
  existsb (fun k' => Qeq_bool k' k) ks = true <-> InA Qeq k ks.
Proof.
  rewrite existsb_exists, InA_alt. split.
  - intros (y & Hy & He). exists y. apply Qeq_bool_iff in He.
    split; [now symmetry | assumption].
  - intros (y & He & Hy). exists y. split; [assumption|].
    apply Qeq_bool_iff. now symmetry.
Qed.

Lemma add_key_NoDupA ks k : NoDupA Qeq ks -> NoDupA Qeq (add_key ks k).
Proof.
  intros Hnd. unfold add_key.
  destruct (existsb _ ks) eqn:He; [assumption|].
  assert (Hnot : ~ InA Qeq k ks).
  { intros Hin. apply existsb_InA in Hin. congruence. }
  clear He. induction Hnd as [|x ks Hx Hnd IH]; simpl.
  - constructor; [inversion 1 | constructor].
  - constructor.
    + rewrite InA_app_iff. intros [H|H]; [now apply Hx|].
      inversion H as [? ? Heq|? ? H']; subst; [|inversion H'].
      apply Hnot. constructor. now symmetry.
    + apply IH. intros H. apply Hnot. now constructor 2.
Qed.

Lemma add_key_InA ks k x :
  InA Qeq x (add_key ks k) <-> InA Qeq x ks \/ x == k.
Proof.
  unfold add_key. destruct (existsb _ ks) eqn:He.
  - apply existsb_InA in He. split; [auto|].
    intros [H|H]; [assumption|]. now rewrite H.
  - rewrite InA_app_iff. split; intros [H|H]; auto.
    inversion H as [? ? Heq|? ? H']; subst; [auto | inversion H'].
Qed.

Lemma add_key_In ks k x : In x (add_key ks k) -> In x ks \/ x = k.
Proof.
  unfold add_key. destruct (existsb _ ks); [auto|].
  rewrite in_app_iff. simpl. intuition.
Qed.

Lemma fold_add_key l :
  forall ks,
    NoDupA Qeq ks ->
    NoDupA Qeq (fold_left add_key l ks) /\
    (forall x, InA Qeq x (fold_left add_key l ks)
               <-> InA Qeq x ks \/ InA Qeq x l) /\
    (forall x, In x (fold_left add_key l ks) -> In x ks \/ In x l).
Proof.
  induction l as [|k l IH]; intros ks Hnd; simpl.
  - split; [assumption|]. split; [|auto].
    intros x. split; [auto|]. intros [H|H]; [assumption | inversion H].
  - destruct (IH (add_key ks k) (add_key_NoDupA ks k Hnd)) as (H1 & H2 & H3).
    split; [assumption|]. split.
    + intros x. rewrite H2, add_key_InA. split.
      * intros [[H|H]|H]; auto.
      * intros [H|H]; auto.
        inversion H; subst; auto.
    + intros x Hx. apply H3 in Hx as [Hx|Hx]; auto.
      apply add_key_In in Hx as [Hx|Hx]; auto.
Qed.

(** The keys of the histogram: pairwise different, and exactly the
    observed sizes. *)
Lemma keys_spec flattened :
  let ks := keys (size_to_lines flattened) in
  NoDupA Qeq ks /\
  (forall x, InA Qeq x ks <-> InA Qeq x (map seg_size flattened)) /\
  (forall x, In x ks -> In x (map seg_size flattened)).
Proof.
  simpl. rewrite keys_size_to_lines.
  destruct (fold_add_key (map seg_size flattened) [] (NoDupA_nil _))
    as (H1 & H2 & H3).
  split; [assumption|]. split.
  - intros x. rewrite H2. split; [|auto].
    intros [H|H]; [inversion H | assumption].
  - intros x Hx. apply H3 in Hx as [[]|Hx]. assumption.
Qed.

Lemma insert_desc_In x y l : In x (insert_desc y l) <-> x = y \/ In x l.
Proof.
  induction l as [|z l IH]; simpl; [intuition|].
  destruct (Qle_bool z y); simpl; [intuition|].
  rewrite IH. intuition.
Qed.

Lemma sorted_reverse_In x l : In x (sorted_reverse l) <-> In x l.
Proof.
  induction l as [|y l IH]; simpl; [tauto|].
  rewrite insert_desc_In, IH. intuition.
Qed.

Lemma In_InA_iff (l l' : list Q) :
  (forall x, In x l <-> In x l') ->
  forall x, InA Qeq x l <-> InA Qeq x l'.
Proof.
  intros H x. rewrite !InA_alt.
  split; intros (y & Hy & Hin); exists y; split; auto; now apply H.
Qed.

Lemma insert_desc_sorted x l :
  StronglySorted Qgt l -> ~ InA Qeq x l ->
  StronglySorted Qgt (insert_desc x l).
Proof.
  induction 1 as [|y l Hs IH Hy]; intros Hx; simpl.
  - repeat constructor.
  - destruct (Qle_bool y x) eqn:Hle.
    + apply Qle_bool_iff in Hle.
      assert (Hlt : (y < x)%Q).
      { apply Qlt_leneq. split; [assumption|].
        intros Heq. apply Hx. constructor. now symmetry. }
      constructor; [now constructor|].
      constructor; [exact Hlt|].
      rewrite Forall_forall in *. intros z Hz. unfold Qgt in *.
      apply Qlt_trans with y; auto.
    + assert (Hlt : (x < y)%Q).
      { apply Qnot_le_lt. intros Hle'. apply Qle_bool_iff in Hle'.
        congruence. }
      constructor.
      * apply IH. intros H. apply Hx. now constructor 2.
      * rewrite Forall_forall in *. intros z Hz.
        apply insert_desc_In in Hz as [->|Hz]; [exact Hlt | now apply Hy].
Qed.

Lemma sorted_reverse_sorted l :
  NoDupA Qeq l -> StronglySorted Qgt (sorted_reverse l).
Proof.
  induction 1 as [|x l Hx Hnd IH]; simpl; [constructor|].
  apply insert_desc_sorted; [assumption|].
  intros H. apply Hx.
  now apply (In_InA_iff _ _ (fun y => sorted_reverse_In y l)) in H.
Qed.

(** A strictly decreasing list is determined by its elements: on keys that
    are pairwise different, any sort returns [sorted_reverse]. *)
Lemma decreasing_unique l1 :
  forall l2,
    StronglySorted Qgt l1 -> StronglySorted Qgt l2 ->
    (forall x, In x l1 <-> In x l2) -> l1 = l2.
Proof.
  induction l1 as [|x1 l1 IH]; intros [|x2 l2] H1 H2 Hin.
  - reflexivity.
  - exfalso. apply (Hin x2). now left.
  - exfalso. apply (Hin x1). now left.
  - apply StronglySorted_inv in H1 as [H1 Hx1].
    apply StronglySorted_inv in H2 as [H2 Hx2].
    rewrite Forall_forall in Hx1, Hx2. unfold Qgt in Hx1, Hx2.
    assert (Heq : x1 = x2).
    { destruct (proj1 (Hin x1) (or_introl eq_refl)) as [E|E1]; [now symmetry|].
      destruct (proj2 (Hin x2) (or_introl eq_refl)) as [E|E2]; [exact E|].
      exfalso. apply (Qlt_irrefl x1).
      apply Qlt_trans with x2; [now apply Hx2 | now apply Hx1]. }
    subst x2. f_equal. apply IH; auto.
    intros x. split; intros Hx.
    + destruct (proj1 (Hin x) (or_intror Hx)) as [E|E]; [|exact E].
      subst x. exfalso. apply (Qlt_irrefl x1). now apply Hx1.
    + destruct (proj2 (Hin x) (or_intror Hx)) as [E|E]; [|exact E].
      subst x. exfalso. apply (Qlt_irrefl x1). now apply Hx2.
Qed.

Lemma sorted_reverse_unique l l' :
  NoDupA Qeq l -> StronglySorted Qgt l' ->
  (forall x, In x l' <-> In x l) -> l' = sorted_reverse l.
Proof.
  intros Hnd Hs Hin. apply decreasing_unique; auto.
  - now apply sorted_reverse_sorted.
  - intros x. now rewrite Hin, sorted_reverse_In.
Qed.

Lemma firstn_sorted n (l : list Q) :
  StronglySorted Qgt l -> StronglySorted Qgt (firstn n l).
Proof.
  intros H. revert n. induction H as [|x l Hs IH Hx]; intros [|n]; simpl;
    try constructor; auto.
  rewrite Forall_forall in *. intros z Hz. apply Hx.
  rewrite <- (firstn_skipn n l). apply in_or_app. now left.
Qed.

Lemma slice_to_nonneg {A} (l : list A) stop :
  0 <= stop -> slice_to l stop = firstn (Z.to_nat stop) l.
Proof.
  intros H. unfold slice_to.
  destruct (Z.ltb_spec stop 0); [lia | reflexivity].
Qed.

End LevelSizes.

(** C3. With a number of heading levels that is not negative, the level
    size table is the list of the distinct observed font sizes in strictly
    decreasing order, cut after its first [heading_levels + 1] values; so
    the table is strictly decreasing and has at most [heading_levels + 1]
    entries.  Each entry is one of the observed sizes, and every observed
    size is equal to an entry of the uncut list.  The sizes 20, 20, 16, 12,
    12 with three heading levels give the table 20, 16, 12. *)
Theorem level_sizes_table (self : PDFOutlineExtractor)
    (flattened : list Segment) :
  0 <= heading_levels self ->
  (exists unique_sizes : list Q,
      StronglySorted Qgt unique_sizes /\
      (forall x, In x unique_sizes -> In x (map seg_size flattened)) /\
      (forall seg, In seg flattened ->
                   exists x, In x unique_sizes /\ x == seg_size seg) /\
      level_sizes_of self flattened
      = firstn (Z.to_nat (heading_levels self + 1)) unique_sizes) /\
  StronglySorted Qgt (level_sizes_of self flattened) /\
  Z.of_nat (List.length (level_sizes_of self flattened))
  <= heading_levels self + 1 /\
  (heading_levels self = 3 ->
   map seg_size flattened = [20#1; 20#1; 16#1; 12#1; 12#1] ->
   level_sizes_of self flattened = [20#1; 16#1; 12#1]).
Proof.
  intros Hh.
  destruct (keys_spec flattened) as (Hnd & HinA & Hin). simpl in *.
  assert (Hsorted := sorted_reverse_sorted _ Hnd).
  assert (Htable : level_sizes_of self flattened
                   = firstn (Z.to_nat (heading_levels self + 1))
                       (sorted_reverse (keys (size_to_lines flattened)))).
  { unfold level_sizes_of. apply slice_to_nonneg. lia. }
  split; [|split; [|split]].
  - exists (sorted_reverse (keys (size_to_lines flattened))).
    split; [assumption|]. split; [|split; [|assumption]].
    + intros x Hx. apply Hin. now apply sorted_reverse_In.
    + intros seg Hseg.
      assert (H : InA Qeq (seg_size seg) (map seg_size flattened)).
      { apply In_InA; [exact Q_Setoid|]. now apply in_map. }
      apply HinA in H. apply InA_alt in H as (y & Hy & Hiny).
      exists y. split; [now apply sorted_reverse_In | now symmetry].
  - rewrite Htable. now apply firstn_sorted.
  - rewrite Htable, length_firstn. lia.
  - intros H3 Hsizes. unfold level_sizes_of.
    rewrite keys_size_to_lines, Hsizes, H3. reflexivity.
Qed.

Lemma level_sizes_table_witness :
  let flattened : list Segment :=
    [("Title", 1, 20#1, true); ("Title two", 1, 20#1, true);
     ("Heading", 1, 16#1, false); ("body", 1, 12#1, false);
     ("more body", 2, 12#1, false)] in
  0 <= heading_levels default_extractor /\
  level_sizes_of default_extractor flattened = [20#1; 16#1; 12#1] /\
  StronglySorted Qgt (level_sizes_of default_extractor flattened) /\
  Z.of_nat (List.length (level_sizes_of default_extractor flattened)) <= 3 + 1.
Proof.
  intros flattened.
  assert (Hh : 0 <= heading_levels default_extractor) by (simpl; lia).
  destruct (level_sizes_table default_extractor flattened Hh)
    as (_ & Hsorted & Hlen & Hex).
  split; [exact Hh|]. split; [now apply Hex|]. split; [exact Hsorted|].
  exact Hlen.
Defined.

(** ** The classification loop *)

Section Classification.

Variable self : PDFOutlineExtractor.
Variable level_sizes : list Q.

(** What one iteration does to the title candidate. *)
Lemma classify_step_title hs tc seg :
  snd (classify_step self level_sizes (hs, tc) seg)
  = if accepted self level_sizes seg then str_or tc (seg_text seg) else tc.
Proof.
  unfold classify_step, accepted.
  destruct (resolve_level self level_sizes seg =? 0); simpl.
  - now destruct (title_test seg).
  - destruct ((1 <=? _) && (_ <=? _)); [|reflexivity].
    now destruct (_is_valid_heading _).
Qed.

(** What one iteration does to the headings. *)
Lemma classify_step_headings hs tc seg :
  fst (classify_step self level_sizes (hs, tc) seg) = hs \/
  exists lvl,
    lvl = resolve_level self level_sizes seg /\
    1 <= lvl <= heading_levels self /\
    _is_valid_heading (_clean_text (seg_text seg)) = true /\
    fst (classify_step self level_sizes (hs, tc) seg)
    = (hs ++ [ {| level := "H" ++ Str.of_int lvl;
                  text := _clean_text (seg_text seg);
                  page := seg_page seg |} ])%list.
Proof.
  unfold classify_step.
  destruct (resolve_level self level_sizes seg =? 0).
  - left. now destruct (title_test seg).
  - destruct ((1 <=? _) && (_ <=? _)) eqn:Hrange; [|now left].
    destruct (_is_valid_heading _) eqn:Hvalid; [|now left].
    right. eexists. split; [reflexivity|].
    apply andb_true_iff in Hrange as [H1 H2].
    apply Z.leb_le in H1, H2. auto.
Qed.

Lemma classify_fold_valid l :
  forall st,
    Forall (fun h => _is_valid_heading (text h) = true) (fst st) ->
    Forall (fun h => _is_valid_heading (text h) = true)
           (fst (fold_left (classify_step self level_sizes) l st)).
Proof.
  induction l as [|seg l IH]; intros [hs tc] Hst; cbn [fold_left];
    [assumption|].
  apply IH.
  destruct (classify_step_headings hs tc seg)
    as [->|(lvl & _ & _ & Hvalid & ->)]; [assumption|].
  apply Forall_app. split; [assumption|]. now repeat constructor.
Qed.

Lemma classify_valid flattened :
  Forall (fun h => _is_valid_heading (text h) = true)
         (fst (classify self level_sizes flattened)).
Proof. apply classify_fold_valid. constructor. Qed.

(** The title candidate the loop ends with: the text of the first
    accepted line whose text is not empty. *)
Lemma classify_fold_title l :
  forall hs tc,
    snd (fold_left (classify_step self level_sizes) l (hs, tc))
    = str_or tc
        match find (fun seg => accepted self level_sizes seg
                               && negb (String.eqb (seg_text seg) "")) l with
        | Some seg => seg_text seg
        | None => ""
        end.
Proof.
  induction l as [|seg l IH]; intros hs tc; cbn [fold_left find].
  - unfold str_or. now destruct (String.eqb_spec tc "").
  - pose proof (classify_step_title hs tc seg) as Hstep.
    destruct (classify_step self level_sizes (hs, tc) seg) as [hs' tc'].
    simpl in Hstep. subst tc'.
    rewrite IH. unfold str_or.
    destruct (accepted self level_sizes seg); simpl; [|reflexivity].
    destruct (String.eqb_spec (seg_text seg) ""); simpl.
    + destruct (String.eqb_spec tc ""); [now rewrite e, String.eqb_refl|].
      now destruct (String.eqb_spec tc "").
    + destruct (String.eqb_spec tc ""); [|now destruct (String.eqb_spec tc "")].
      now destruct (String.eqb_spec (seg_text seg) "").
Qed.

End Classification.

Section Result.

Lemma dedup_fold_incl l :
  forall st, incl (fst (fold_left dedup_step l st)) (fst st ++ l).
Proof.
  induction l as [|h l IH]; intros [deduped last]; simpl.
  - rewrite app_nil_r. apply incl_refl.
  - intros x Hx. apply IH in Hx. simpl in Hx.
    destruct (match last with
              | Some l0 => negb (Heading_eqb h l0)
              | None => true
              end).
    + rewrite <- app_assoc in Hx. exact Hx.
    + apply in_app_iff in Hx as [Hx|Hx]; apply in_app_iff;
        [now left | right; now right].
Qed.

Lemma dedup_incl l : incl (dedup l) l.
Proof. exact (dedup_fold_incl l ([], None)). Qed.

Lemma title_fallback_set level_sizes flattened tc :
  tc <> "" -> title_fallback level_sizes flattened tc = Return tc.
Proof.
  intros H. unfold title_fallback.
  now destruct (String.eqb_spec tc "").
Qed.

(** The outline of a returned result is the deduplicated heading list of
    the classification loop. *)
Lemma process_segments_outline self pages_data out :
  _process_segments self pages_data = Return out ->
  outline out
  = dedup (fst (classify self
                  (level_sizes_of self (concat pages_data))
                  (concat pages_data))).
Proof.
  unfold _process_segments.
  destruct (concat pages_data) as [|seg flattened] eqn:Hflat.
  - intros H; inversion H; reflexivity.
  - destruct (classify _ _ _) as [headings tc].
    destruct (title_fallback _ _ tc); simpl; [|discriminate].
    intros H; inversion H; reflexivity.
Qed.

Lemma is_valid_heading_spec t :
  _is_valid_heading t = true <->
  ~ date_pattern t /\ ~ digits t /\
  exists a c b, t = a ++ String c b /\ Char.isalpha c = true.
Proof.
  unfold _is_valid_heading.
  rewrite <- date_like_correct, <- all_digits_correct, <- any_alpha_spec.
  destruct (date_like t), (all_digits t); intuition congruence.
Qed.

End Result.

(** C4 as stated fails: a text of one or two digits, whitespace, three or
    more uppercase letters, whitespace and two to four digits is kept as a
    heading when one of the letters is outside A-Z.  The text below is "18",
    a space, E acute (U+00C9), "T", E acute, a space and "2013"; it is fully
    upper-case, the class of line 198 does not hold E acute, and the text is
    a heading of the outline. *)
Lemma uppercase_date_kept_counterexample :
  let date := "18 " ++ String "201" (String "084" (String "201" " 2013")) in
  let pages_data : list (list Segment) :=
    [[("Report", 1, 20#1, true); (date, 2, 16#1, false)]] in
  date_pattern_uppercase date /\
  Str.isupper date = true /\
  date_like date = false /\
  _is_valid_heading date = true /\
  _process_segments default_extractor pages_data
  = Return {| title := "Report"; outline := [ mkHeading "H1" date 2 ] |} /\
  ~ (forall (self : PDFOutlineExtractor) (pages_data : list (list Segment))
            (out : Outline) (h : Heading),
        _process_segments self pages_data = Return out ->
        In h (outline out) ->
        ~ date_pattern_uppercase (text h)).
Proof.
  intros date pages_data.
  assert (Hdate : date_pattern_uppercase date).
  { exists "18", " ", (String "201" (String "084" (String "201" ""))),
           " ", "2013".
    split; [reflexivity|]. split; [reflexivity|]. split; [simpl; lia|].
    split; [split; [discriminate | reflexivity]|].
    split; [reflexivity|]. split; [simpl; lia|].
    split; [split; [discriminate | reflexivity]|].
    split; [reflexivity | simpl; lia]. }
  assert (Hout : _process_segments default_extractor pages_data
                 = Return {| title := "Report";
                             outline := [ mkHeading "H1" date 2 ] |})
    by (vm_compute; reflexivity).
  split; [exact Hdate|]. split; [reflexivity|]. split; [reflexivity|].
  split; [reflexivity|]. split; [exact Hout|].
  intros Hclaim.
  apply (Hclaim default_extractor pages_data _ (mkHeading "H1" date 2) Hout);
    [left; reflexivity | exact Hdate].
Qed.

(** C4, amended. Every heading of a returned outline has a text that passed
    the validity filter: the text is not a match of the date pattern (one or
    two digits, whitespace, three or more letters A-Z, whitespace, two to
    four digits, and nothing else), is not made of digits only, and holds a
    letter.  So neither "18 JUNE 2013" nor "42" is the text of a heading of
    the outline. *)
Theorem outline_headings_valid (self : PDFOutlineExtractor)
    (pages_data : list (list Segment)) (out : Outline) (h : Heading) :
  _process_segments self pages_data = Return out ->
  In h (outline out) ->
  _is_valid_heading (text h) = true /\
  ~ date_pattern (text h) /\
  ~ digits (text h) /\
  (exists a c b, text h = a ++ String c b /\ Char.isalpha c = true) /\
  text h <> "18 JUNE 2013" /\
  text h <> "42".
Proof.
  intros Hout Hin.
  rewrite (process_segments_outline _ _ _ Hout) in Hin.
  apply dedup_incl in Hin.
  pose proof (classify_valid self (level_sizes_of self (concat pages_data))
                (concat pages_data)) as Hall.
  rewrite Forall_forall in Hall. specialize (Hall h Hin).
  split; [assumption|].
  repeat split; try (now apply is_valid_heading_spec).
  - intros Heq. rewrite Heq in Hall. discriminate.
  - intros Heq. rewrite Heq in Hall. discriminate.
Qed.

Lemma outline_headings_valid_witness :
  let pages_data : list (list Segment) :=
    [[("Report", 1, 20#1, true); ("18 JUNE 2013", 1, 16#1, false);
      ("42", 2, 16#1, false); ("1.1  Scope", 2, 12#1, false);
      ("3 MAY 99", 2, 16#1, false); ("-- * --", 2, 16#1, false)]] in
  let out := {| title := "Report";
                outline := [ mkHeading "H2" "1.1 Scope" 2 ] |} in
  _process_segments default_extractor pages_data = Return out /\
  In (mkHeading "H2" "1.1 Scope" 2) (outline out) /\
  _is_valid_heading "1.1 Scope" = true /\
  ~ date_pattern "1.1 Scope" /\
  ~ digits "1.1 Scope".
Proof.
  intros pages_data out.
  assert (Hout : _process_segments default_extractor pages_data = Return out)
    by reflexivity.
  assert (Hin : In (mkHeading "H2" "1.1 Scope" 2) (outline out))
    by (left; reflexivity).
  destruct (outline_headings_valid default_extractor pages_data out _ Hout Hin)
    as (Hvalid & Hdate & Hdigits & _).
  repeat split; assumption.
Defined.

(** ** The title *)

Section Title.

Lemma large_candidates_find large_size flattened :
  match map seg_text
          (filter (fun seg => Qeq_bool (seg_size seg) large_size) flattened)
  with
  | t :: _ => t
  | [] => ""
  end = first_text_of_size large_size flattened.
Proof.
  unfold first_text_of_size.
  induction flattened as [|seg l IH]; simpl; [reflexivity|].
  now destruct (Qeq_bool (seg_size seg) large_size).
Qed.

Lemma title_fallback_unset large_size level_sizes flattened :
  title_fallback (large_size :: level_sizes) flattened ""
  = Return (first_text_of_size large_size flattened).
Proof.
  unfold title_fallback. simpl. now rewrite large_candidates_find.
Qed.

(** With a number of heading levels that is not negative, the table of a
    sequence that is not empty starts with the head of the sorted keys. *)
Lemma level_sizes_head self flattened :
  0 <= heading_levels self -> flattened <> [] ->
  exists large_size rest,
    sorted_reverse (keys (size_to_lines flattened)) = large_size :: rest /\
    level_sizes_of self flattened
    = large_size :: firstn (Z.to_nat (heading_levels self)) rest.
Proof.
  intros Hh Hne.
  destruct (sorted_reverse (keys (size_to_lines flattened)))
    as [|large_size rest] eqn:Hsorted.
  - exfalso. destruct flattened as [|seg l]; [congruence|].
    destruct (keys_spec (seg :: l)) as (_ & HinA & _). simpl in HinA.
    assert (H : InA Qeq (seg_size seg) (keys (size_to_lines (seg :: l)))).
    { apply HinA. now constructor. }
    apply InA_alt in H as (y & _ & Hy).
    apply sorted_reverse_In in Hy. rewrite Hsorted in Hy. contradiction.
  - exists large_size, rest. split; [reflexivity|].
    unfold level_sizes_of. rewrite slice_to_nonneg by lia. rewrite Hsorted.
    replace (Z.to_nat (heading_levels self + 1))
      with (S (Z.to_nat (heading_levels self))) by lia.
    reflexivity.
Qed.

(** Whatever the number of heading levels, the table is a prefix of the
    sorted keys. *)
Lemma slice_to_prefix {A} (l : list A) stop :
  exists n, slice_to l stop = firstn n l.
Proof. unfold slice_to. destruct (stop <? 0); eauto. Qed.

Lemma level_sizes_prefix self flattened large_size :
  nth_error (level_sizes_of self flattened) 0 = Some large_size ->
  exists rest tl,
    sorted_reverse (keys (size_to_lines flattened)) = large_size :: rest /\
    level_sizes_of self flattened = large_size :: tl.
Proof.
  unfold level_sizes_of.
  destruct (slice_to_prefix (sorted_reverse (keys (size_to_lines flattened)))
              (heading_levels self + 1)) as [n ->].
  destruct (sorted_reverse (keys (size_to_lines flattened))) as [|x rest].
  - rewrite firstn_nil. discriminate.
  - destruct n as [|n]; simpl; [discriminate|].
    intros H; inversion H; subst. eauto.
Qed.

(** The head of the sorted keys is the largest observed size, and a line
    has it. *)
Lemma sorted_head_max flattened large_size rest :
  sorted_reverse (keys (size_to_lines flattened)) = large_size :: rest ->
  (forall seg, In seg flattened -> (seg_size seg <= large_size)%Q) /\
  exists seg, In seg flattened /\ seg_size seg = large_size.
Proof.
  intros Hsorted.
  destruct (keys_spec flattened) as (Hnd & HinA & Hin). simpl in *.
  pose proof (sorted_reverse_sorted _ Hnd) as Hs. rewrite Hsorted in Hs.
  apply StronglySorted_inv in Hs as [_ Hall].
  rewrite Forall_forall in Hall. split.
  - intros seg Hseg.
    assert (H : InA Qeq (seg_size seg) (map seg_size flattened)).
    { apply In_InA; [exact Q_Setoid|]. now apply in_map. }
    apply HinA in H. apply InA_alt in H as (y & Hy & Hiny).
    apply sorted_reverse_In in Hiny. rewrite Hsorted in Hiny.
    rewrite Hy. destruct Hiny as [->|Hiny].
    + apply Qle_refl.
    + apply Qlt_le_weak. now apply Hall.
  - assert (H : In large_size (map seg_size flattened)).
    { apply Hin, sorted_reverse_In. rewrite Hsorted. now left. }
    apply in_map_iff in H as (seg & Hsize & Hseg). now exists seg.
Qed.

Lemma find_some_of_In {A} (f : A -> bool) l x :
  In x l -> f x = true -> exists y, find f l = Some y.
Proof.
  induction l as [|z l IH]; simpl; [contradiction|].
  intros [->|Hx] Hf.
  - rewrite Hf. now exists x.
  - destruct (f z); [now exists z | now apply IH].
Qed.

(** The result of the classifier on a sequence that is not empty. *)
Lemma process_segments_nonempty self pages_data :
  concat pages_data <> [] ->
  _process_segments self pages_data
  = (let flattened := concat pages_data in
     let level_sizes := level_sizes_of self flattened in
     let st := classify self level_sizes flattened in
     title_candidate <- title_fallback level_sizes flattened (snd st) ;;
     Return {| title := _clean_text title_candidate;
               outline := dedup (fst st) |}).
Proof.
  intros Hne. unfold _process_segments.
  destruct (concat pages_data) as [|seg l] eqn:Hflat; [congruence|].
  simpl. now destruct (classify _ _ _).
Qed.

End Title.

(** C9. With a number of heading levels that is not negative, the
    classifier returns an outline for every sequence of pages, whatever the
    texts, page numbers and font sizes (negative ones included) of the
    observations: it never raises. *)
Theorem process_segments_total (self : PDFOutlineExtractor)
    (pages_data : list (list Segment)) :
  0 <= heading_levels self ->
  exists out, _process_segments self pages_data = Return out.
Proof.
  intros Hh.
  destruct (concat pages_data) as [|seg l] eqn:Hflat.
  - unfold _process_segments. rewrite Hflat. eauto.
  - rewrite process_segments_nonempty by congruence. rewrite Hflat.
    cbv zeta.
    destruct (level_sizes_head self (seg :: l) Hh ltac:(congruence))
      as (large_size & rest & _ & ->).
    set (level_sizes :=
           large_size :: firstn (Z.to_nat (heading_levels self)) rest).
    destruct (String.eqb_spec (snd (classify self level_sizes (seg :: l))) "")
      as [->|Hset].
    + subst level_sizes. rewrite title_fallback_unset. simpl. eauto.
    + rewrite title_fallback_set by assumption. simpl. eauto.
Qed.

Lemma process_segments_total_witness :
  0 <= heading_levels default_extractor /\
  exists out,
    _process_segments default_extractor
      [[("Intro", 1, (-5)#1, false); ("", 0, 0#1, true)];
       [("7", -2, (-12)#1, false)]]
    = Return out.
Proof.
  split; [simpl; lia|].
  apply (process_segments_total default_extractor); simpl; lia.
Defined.

(** C10. For a sequence of observations that is not empty, index 0 of the
    level size table, whenever the table has one, is the largest observed
    font size and an observation has it: the list of candidates of the title
    fallback is never empty, so whenever the fallback runs the title is the
    cleaned text of the first observation of that size, and the empty-string
    arm is never taken.  The table has an index 0 as soon as the number of
    heading levels is not negative. *)
Theorem title_fallback_never_empty (self : PDFOutlineExtractor)
    (pages_data : list (list Segment)) :
  let flattened := concat pages_data in
  let level_sizes := level_sizes_of self flattened in
  flattened <> [] ->
  (0 <= heading_levels self ->
   exists large_size, nth_error level_sizes 0 = Some large_size) /\
  (forall large_size,
      nth_error level_sizes 0 = Some large_size ->
      (forall s, In s flattened -> (seg_size s <= large_size)%Q) /\
      filter (fun s => Qeq_bool (seg_size s) large_size) flattened <> [] /\
      exists seg,
        find (fun s => Qeq_bool (seg_size s) large_size) flattened
        = Some seg /\
        title_fallback level_sizes flattened "" = Return (seg_text seg) /\
        (snd (classify self level_sizes flattened) = "" ->
         _process_segments self pages_data
         = Return {| title := _clean_text (seg_text seg);
                     outline := dedup (fst (classify self level_sizes
                                              flattened)) |})).
Proof.
  intros flattened level_sizes Hne. split.
  - intros Hh.
    destruct (level_sizes_head self flattened Hh Hne)
      as (large_size & rest & _ & Htable).
    exists large_size. subst level_sizes. now rewrite Htable.
  - intros large_size Hlarge.
    destruct (level_sizes_prefix self flattened large_size Hlarge)
      as (rest & tl & Hsorted & Htable).
    destruct (sorted_head_max flattened large_size rest Hsorted)
      as (Hmax & seg0 & Hseg0 & Hsize0).
    destruct (find_some_of_In
                (fun s => Qeq_bool (seg_size s) large_size)
                flattened seg0 Hseg0)
      as (seg & Hfind).
    { rewrite Hsize0. apply Qeq_bool_refl. }
    assert (Hfb : title_fallback level_sizes flattened ""
                  = Return (seg_text seg)).
    { subst level_sizes. rewrite Htable, title_fallback_unset.
      unfold first_text_of_size. now rewrite Hfind. }
    split; [exact Hmax|]. split.
    + intros Hnil. apply find_some in Hfind as [Hin Heq].
      assert (H : In seg (filter (fun s => Qeq_bool (seg_size s) large_size)
                                 flattened))
        by (apply filter_In; auto).
      rewrite Hnil in H. contradiction.
    + exists seg. split; [exact Hfind|]. split; [exact Hfb|].
      intros Htc. rewrite process_segments_nonempty by assumption.
      cbv zeta. fold flattened. fold level_sizes. rewrite Htc, Hfb.
      reflexivity.
Qed.

Lemma title_fallback_never_empty_witness :
  let pages_data : list (list Segment) :=
    [[("body text", 2, 10#1, false); ("  Big   Heading", 2, 18#1, false);
      ("Other big", 3, 18#1, false)]] in
  let flattened := concat pages_data in
  let level_sizes := level_sizes_of default_extractor flattened in
  flattened <> [] /\
  nth_error level_sizes 0 = Some (18#1) /\
  snd (classify default_extractor level_sizes flattened) = "" /\
  filter (fun s => Qeq_bool (seg_size s) (18#1)) flattened <> [] /\
  _process_segments default_extractor pages_data
  = Return {| title := "Big Heading";
              outline := [ mkHeading "H1" "body text" 2 ] |}.
Proof.
  intros pages_data flattened level_sizes.
  assert (Hne : flattened <> []) by discriminate.
  assert (Hlarge : nth_error level_sizes 0 = Some (18#1)) by reflexivity.
  assert (Htc : snd (classify default_extractor level_sizes flattened) = "")
    by reflexivity.
  destruct (title_fallback_never_empty default_extractor pages_data Hne)
    as [_ Harm].
  destruct (Harm (18#1) Hlarge) as (_ & Hcands & seg & Hfind & _ & Hrun).
  split; [exact Hne|]. split; [exact Hlarge|]. split; [exact Htc|].
  split; [exact Hcands|].
  rewrite (Hrun Htc).
  inversion Hfind; subst seg. reflexivity.
Defined.

(** C5. When the classification pass accepts no title candidate (and the
    number of heading levels is not negative), the classifier returns, and
    its title is the cleaned text of the first observation, in flattened scan
    order, whose font size equals index 0 of the level size table; the title
    is the empty string when there is no such observation. *)
Theorem title_fallback_largest (self : PDFOutlineExtractor)
    (pages_data : list (list Segment)) :
  let flattened := concat pages_data in
  let level_sizes := level_sizes_of self flattened in
  0 <= heading_levels self ->
  (forall seg, In seg flattened -> accepted self level_sizes seg = false) ->
  exists out,
    _process_segments self pages_data = Return out /\
    match nth_error level_sizes 0 with
    | Some large_size =>
        match find (fun seg => Qeq_bool (seg_size seg) large_size) flattened
        with
        | Some seg => title out = _clean_text (seg_text seg)
        | None => title out = ""
        end
    | None => title out = ""
    end.
Proof.
  intros flattened level_sizes Hh Hnone. subst level_sizes flattened.
  destruct (concat pages_data) as [|seg0 l] eqn:Hflat.
  - exists {| title := ""; outline := [] |}.
    unfold _process_segments. rewrite Hflat.
    split; [reflexivity|].
    unfold level_sizes_of. rewrite slice_to_nonneg by lia.
    simpl. rewrite firstn_nil. reflexivity.
  - rewrite process_segments_nonempty by (rewrite Hflat; discriminate).
    cbv zeta. rewrite Hflat.
    assert (Htc : snd (classify self (level_sizes_of self (seg0 :: l))
                         (seg0 :: l)) = "").
    { unfold classify. rewrite classify_fold_title.
      destruct (find _ (seg0 :: l)) as [seg|] eqn:Hfind; [|reflexivity].
      apply find_some in Hfind as [Hin Hacc].
      rewrite (Hnone seg Hin) in Hacc. discriminate. }
    rewrite Htc.
    destruct (level_sizes_head self (seg0 :: l) Hh ltac:(congruence))
      as (large_size & rest & _ & Htable).
    rewrite Htable. rewrite title_fallback_unset.
    cbn [bind]. eexists. split; [reflexivity|].
    cbn [nth_error title]. unfold first_text_of_size.
    destruct (find _ (seg0 :: l)); reflexivity.
Qed.

Lemma title_fallback_largest_witness :
  let pages_data : list (list Segment) :=
    [[("body text", 2, 10#1, false)];
     [(" Annual  Report ", 3, 18#1, true); ("Other big", 3, 18#1, false)]] in
  0 <= heading_levels default_extractor /\
  (forall seg, In seg (concat pages_data) ->
     accepted default_extractor
       (level_sizes_of default_extractor (concat pages_data)) seg = false) /\
  _process_segments default_extractor pages_data
  = Return {| title := "Annual Report";
              outline := [ mkHeading "H1" "body text" 2 ] |} /\
  exists out,
    _process_segments default_extractor pages_data = Return out /\
    title out = "Annual Report".
Proof.
  intros pages_data.
  assert (Hh : 0 <= heading_levels default_extractor) by (simpl; lia).
  assert (Hnone : forall seg, In seg (concat pages_data) ->
            accepted default_extractor
              (level_sizes_of default_extractor (concat pages_data)) seg
            = false).
  { intros seg [<-|[<-|[<-|[]]]]; reflexivity. }
  split; [exact Hh|]. split; [exact Hnone|]. split; [reflexivity|].
  destruct (title_fallback_largest default_extractor pages_data Hh Hnone)
    as (out & Hout & Htitle).
  exists out. split; [exact Hout|]. exact Htitle.
Defined.

Section TitleCandidate.

Lemma accepted_rule self level_sizes seg :
  accepted self level_sizes seg = true <->
  resolve_level self level_sizes seg = 0 /\
  seg_page seg <= 1 /\
  (seg_bold seg = true \/ Str.isupper (seg_text seg) = true
   \/ Z.of_nat (List.length (Str.split (seg_text seg))) < 15).
Proof.
  unfold accepted, title_test. destruct seg as [[[t p] s] b]. simpl.
  rewrite !andb_true_iff, !orb_true_iff, Z.eqb_eq, Z.leb_le, Z.ltb_lt.
  tauto.
Qed.

Lemma find_first {A} (f : A -> bool) l1 x l2 :
  f x = true -> (forall y, In y l1 -> f y = false) ->
  find f (l1 ++ x :: l2) = Some x.
Proof.
  intros Hx. induction l1 as [|y l1 IH]; simpl; intros Hl1.
  - now rewrite Hx.
  - rewrite (Hl1 y) by now left. apply IH. intros z Hz. apply Hl1. now right.
Qed.

Lemma find_none_iff {A} (f : A -> bool) l :
  (forall y, In y l -> f y = false) -> find f l = None.
Proof.
  induction l as [|y l IH]; simpl; intros Hl; [reflexivity|].
  rewrite (Hl y) by now left. apply IH. intros z Hz. apply Hl. now right.
Qed.

End TitleCandidate.

(** C2 as stated fails: the title candidate is not always the first accepted
    line.  When the first accepted line has an empty text, line 160 leaves
    the candidate unset and a later accepted line becomes the candidate, and
    the title. *)
Lemma first_accepted_candidate_counterexample :
  let flattened : list Segment :=
    [("", 1, 20#1, true); ("Title", 1, 20#1, true)] in
  let level_sizes := level_sizes_of default_extractor flattened in
  find (accepted default_extractor level_sizes) flattened
  = Some ("", 1, 20#1, true) /\
  snd (classify default_extractor level_sizes flattened) = "Title" /\
  _process_segments default_extractor [flattened]
  = Return {| title := "Title"; outline := [] |} /\
  ~ (forall (self : PDFOutlineExtractor) (level_sizes : list Q)
            (flattened : list Segment) (seg : Segment),
        find (accepted self level_sizes) flattened = Some seg ->
        snd (classify self level_sizes flattened) = seg_text seg).
Proof.
  intros flattened level_sizes.
  split; [reflexivity|]. split; [reflexivity|]. split; [reflexivity|].
  intros H.
  specialize (H default_extractor level_sizes flattened
                ("", 1, 20#1, true) eq_refl).
  discriminate H.
Qed.

(** C2, amended. A line is taken as a title candidate exactly when its
    resolved level is 0, its page number is at most 1 and it is bold, or
    fully upper-case, or has fewer than 15 words; no other line changes the
    title candidate.  The title candidate the pass ends with is the text of
    the first accepted line whose text is not empty, whatever follows it, and
    it is empty when there is no such line.  A candidate that is not empty is
    the title, cleaned. *)
Theorem title_candidate_first_accepted (self : PDFOutlineExtractor)
    (level_sizes : list Q) :
  (forall seg,
      accepted self level_sizes seg = true <->
      resolve_level self level_sizes seg = 0 /\
      seg_page seg <= 1 /\
      (seg_bold seg = true \/ Str.isupper (seg_text seg) = true
       \/ Z.of_nat (List.length (Str.split (seg_text seg))) < 15)) /\
  (forall headings title_candidate seg,
      accepted self level_sizes seg = false ->
      snd (classify_step self level_sizes (headings, title_candidate) seg)
      = title_candidate) /\
  (forall before seg after,
      accepted self level_sizes seg = true ->
      seg_text seg <> "" ->
      (forall s, In s before -> accepted self level_sizes s = true ->
                 seg_text s = "") ->
      snd (classify self level_sizes (before ++ seg :: after)%list)
      = seg_text seg) /\
  (forall flattened,
      (forall s, In s flattened -> accepted self level_sizes s = true ->
                 seg_text s = "") ->
      snd (classify self level_sizes flattened) = "") /\
  (forall pages_data,
      let flattened := concat pages_data in
      let title_candidate :=
        snd (classify self (level_sizes_of self flattened) flattened) in
      title_candidate <> "" ->
      exists out,
        _process_segments self pages_data = Return out /\
        title out = _clean_text title_candidate).
Proof.
  split; [intros seg; apply accepted_rule|].
  split; [|split; [|split]].
  - intros hs tc seg Hacc. now rewrite classify_step_title, Hacc.
  - intros before seg after Hacc Htext Hbefore.
    unfold classify. rewrite classify_fold_title.
    rewrite (find_first _ before seg after).
    + reflexivity.
    + rewrite Hacc. simpl. now destruct (String.eqb_spec (seg_text seg) "").
    + intros s Hs.
      destruct (accepted self level_sizes s) eqn:Hs'; [|reflexivity].
      rewrite (Hbefore s Hs Hs'). reflexivity.
  - intros flattened Hall. unfold classify. rewrite classify_fold_title.
    rewrite find_none_iff; [reflexivity|].
    intros s Hs. destruct (accepted self level_sizes s) eqn:Hs'; [|reflexivity].
    rewrite (Hall s Hs Hs'). reflexivity.
  - intros pages_data flattened title_candidate Hset.
    subst title_candidate flattened.
    assert (Hne : concat pages_data <> []).
    { intros Hnil. apply Hset. now rewrite Hnil. }
    rewrite process_segments_nonempty by assumption. cbv zeta.
    rewrite title_fallback_set by assumption. cbn [bind].
    eexists. split; reflexivity.
Qed.

Lemma title_candidate_first_accepted_witness :
  let level_sizes := [20#1; 16#1] in
  let empty : Segment := ("", 1, 20#1, true) in
  let late : Segment := ("Late title", 2, 20#1, true) in
  let first : Segment := ("Project  Proposal", 1, 20#1, true) in
  let second : Segment := ("SECOND TITLE", 1, 20#1, false) in
  snd (classify default_extractor level_sizes [empty; late; first; second])
  = "Project  Proposal" /\
  _process_segments default_extractor [[empty; late; first; second]]
  = Return {| title := "Project Proposal"; outline := [] |}.
Proof.
  intros level_sizes empty late first second.
  split; [|reflexivity].
  apply (proj1 (proj2 (proj2
           (title_candidate_first_accepted default_extractor level_sizes)))
           [empty; late] first [second]).
  - reflexivity.
  - discriminate.
  - intros s [<-|[<-|[]]]; [reflexivity | discriminate].
Defined.

(** ** The outline *)

(** C6. The outline of a result is the heading sequence of the
    classification pass after deduplication.  The deduplication pass keeps
    the first heading and then drops a heading exactly when it has the level,
    text and page of the heading just before it; so two identical headings in
    a row collapse to one, and a sequence without two identical neighbours
    (which may hold the same heading several times) is returned whole. *)
Theorem dedup_consecutive :
  (forall self pages_data out,
      _process_segments self pages_data = Return out ->
      outline out
      = dedup (fst (classify self (level_sizes_of self (concat pages_data))
                      (concat pages_data)))) /\
  dedup [] = [] /\
  (forall h, dedup [h] = [h]) /\
  (forall l a b,
      level b = level a -> text b = text a -> page b = page a ->
      dedup (l ++ [a; b]) = dedup (l ++ [a])) /\
  (forall l a b,
      (level b <> level a \/ text b <> text a \/ page b <> page a) ->
      dedup (l ++ [a; b]) = (dedup (l ++ [a]) ++ [b])%list) /\
  (forall l,
      (forall l1 a b l2, l = (l1 ++ a :: b :: l2)%list -> a <> b) ->
      dedup l = l) /\
  (let intro := {| level := "H1"; text := "Introduction"; page := 3 |} in
   let other := {| level := "H2"; text := "Scope"; page := 3 |} in
   dedup [intro; intro] = [intro] /\
   dedup [intro; other; intro] = [intro; other; intro]).
Proof.
  split; [exact process_segments_outline|].
  split; [reflexivity|]. split; [reflexivity|].
  split; [|split; [|split]].
  - intros l a b Hl Ht Hp. rewrite dedup_snoc2.
    destruct (Heading_eqb_spec b a) as [_|Hne].
    + now rewrite app_nil_r.
    + exfalso. apply Hne. destruct a, b; simpl in *; congruence.
  - intros l a b Hdiff. rewrite dedup_snoc2.
    destruct (Heading_eqb_spec b a) as [->|_]; [|reflexivity].
    exfalso. destruct Hdiff as [H|[H|H]]; now apply H.
  - apply dedup_no_repeat.
  - split; reflexivity.
Qed.

Lemma dedup_consecutive_witness :
  let intro := {| level := "H1"; text := "Introduction"; page := 3 |} in
  let other := {| level := "H2"; text := "Scope"; page := 3 |} in
  dedup ([other] ++ [intro; intro]) = dedup ([other] ++ [intro]) /\
  dedup ([intro] ++ [other; intro])
  = (dedup ([intro] ++ [other]) ++ [intro])%list /\
  dedup [intro; other; intro] = [intro; other; intro] /\
  _process_segments default_extractor
    [[("Title", 1, 20#1, true); ("Introduction", 3, 16#1, false);
      ("Introduction", 3, 16#1, false); ("Scope", 3, 12#1, false);
      ("Introduction", 3, 16#1, false)]]
  = Return {| title := "Title"; outline := [intro; other; intro] |}.
Proof.
  intros intro other.
  destruct dedup_consecutive as (_ & _ & _ & Hsame & Hdiff & Hnorep & _).
  split; [|split; [|split]].
  - apply (Hsame [other] intro intro); reflexivity.
  - apply (Hdiff [intro] other intro). left. discriminate.
  - apply (Hnorep [intro; other; intro]).
    intros l1 a b l2 Heq.
    destruct l1 as [|x1 [|x2 [|x3 l1]]]; inversion Heq; subst; try discriminate.
    destruct l1; discriminate.
  - reflexivity.
Defined.

(** * Further properties of the code *)

(** ** Cleaning and splitting *)

Section CleanSplit.

Lemma split_starts s :
  Str.starts_with Char.isspace s = false -> s <> "" -> Str.split s <> [].
Proof.
  destruct s as [|c s]; [congruence|]. simpl. intros Hc _. rewrite Hc.
  destruct (Str.starts_with Char.isspace s); [discriminate|].
  destruct (Str.split s); discriminate.
Qed.

Lemma sub_ws_from_starts s :
  Str.starts_with Char.isspace (Str.sub_ws_from false s)
  = Str.starts_with Char.isspace s.
Proof.
  destruct s as [|c s]; [reflexivity|]. simpl.
  destruct (Char.isspace c) eqn:Hc; simpl; [reflexivity | exact Hc].
Qed.

Lemma split_sub_ws_from s :
  forall in_run, Str.split (Str.sub_ws_from in_run s) = Str.split s.
Proof.
  induction s as [|c s IH]; intros in_run; [reflexivity|]. simpl.
  destruct (Char.isspace c) eqn:Hc.
  - destruct in_run; [apply IH|]. simpl. apply IH.
  - simpl. rewrite Hc, sub_ws_from_starts, IH. reflexivity.
Qed.

Lemma split_lstrip s : Str.split (Str.lstrip s) = Str.split s.
Proof.
  induction s as [|c s IH]; [reflexivity|]. simpl.
  destruct (Char.isspace c) eqn:Hc; [exact IH|]. simpl. now rewrite Hc.
Qed.

Lemma rstrip_empty s :
  Str.rstrip s = "" -> Str.split s = [] /\ Str.all Char.isspace s = true.
Proof.
  induction s as [|c s IH]; [auto|]. simpl.
  destruct (Str.rstrip s) eqn:Hr; [|discriminate].
  destruct (Char.isspace c) eqn:Hc; [|discriminate].
  intros _. destruct (IH eq_refl) as [H1 H2]. auto.
Qed.

Lemma all_space_starts s :
  Str.all Char.isspace s = true -> s <> "" ->
  Str.starts_with Char.isspace s = true.
Proof.
  destruct s as [|c s]; [congruence|]. simpl.
  intros H _. now apply andb_true_iff in H.
Qed.

Lemma rstrip_starts_eq s :
  Str.rstrip s <> "" ->
  Str.starts_with Char.isspace (Str.rstrip s)
  = Str.starts_with Char.isspace s.
Proof.
  destruct s as [|c s]; [reflexivity|]. simpl.
  destruct (Str.rstrip s); [|reflexivity].
  destruct (Char.isspace c) eqn:Hc; [congruence|]. simpl. now rewrite Hc.
Qed.

Lemma split_cons c s :
  Str.split (String c s)
  = if Char.isspace c then Str.split s
    else if Str.starts_with Char.isspace s
         then String c EmptyString :: Str.split s
         else match Str.split s with
              | w :: ws => String c w :: ws
              | [] => [String c EmptyString]
              end.
Proof. reflexivity. Qed.

Lemma split_rstrip s : Str.split (Str.rstrip s) = Str.split s.
Proof.
  induction s as [|c s IH]; [reflexivity|].
  change (Str.rstrip (String c s)) with
    (match Str.rstrip s with
     | EmptyString =>
         if Char.isspace c then EmptyString else String c EmptyString
     | r => String c r
     end).
  destruct (Str.rstrip s) as [|c' r] eqn:Hr.
  - destruct (rstrip_empty s Hr) as [Hsplit Hall].
    cbn [Str.split]. rewrite Hsplit.
    destruct (Char.isspace c) eqn:Hc; [reflexivity|].
    cbn [Str.split Str.starts_with]. rewrite Hc.
    destruct (Str.starts_with Char.isspace s); reflexivity.
  - assert (Hst : Str.starts_with Char.isspace (String c' r)
                  = Str.starts_with Char.isspace s).
    { rewrite <- Hr. apply rstrip_starts_eq. rewrite Hr. discriminate. }
    rewrite (split_cons c (String c' r)), (split_cons c s), Hst, IH.
    reflexivity.
Qed.

Lemma split_clean_text s : Str.split (_clean_text s) = Str.split s.
Proof.
  unfold _clean_text, Str.strip, Str.sub_ws.
  now rewrite split_rstrip, split_lstrip, split_sub_ws_from.
Qed.

Lemma rstrip_tail c s :
  Str.rstrip (String c s) = String c s -> Str.rstrip s = s.
Proof.
  simpl. destruct (Str.rstrip s) eqn:Hr.
  - destruct (Char.isspace c); [discriminate|]. now intros H; inversion H.
  - now intros H; inversion H.
Qed.

Lemma concat_cons_word c w ws :
  String.concat " " (String c w :: ws) = String c (String.concat " " (w :: ws)).
Proof. destruct ws; reflexivity. Qed.

(** A squeezed string without whitespace at its end is its words joined by
    single spaces, after what whitespace it starts with. *)
Lemma squeezed_join t :
  squeezed t -> Str.rstrip t = t ->
  String.concat " " (Str.split t) = Str.lstrip t.
Proof.
  induction t as [|c t IH]; [reflexivity|].
  intros [Hc Hsq] Hr. pose proof (rstrip_tail c t Hr) as Hr'.
  specialize (IH Hsq Hr'). cbn [Str.split Str.lstrip].
  destruct (Char.isspace c) eqn:Hsp; [exact IH|].
  destruct (Str.starts_with Char.isspace t) eqn:Hst.
  - destruct t as [|c' t']; [discriminate|]. simpl in Hst.
    destruct Hsq as [Hc' Hsq']. destruct (Hc' Hst) as [-> Hst'].
    assert (Hne : t' <> "").
    { intros ->. simpl in Hr'. discriminate. }
    cbn [Str.split Str.lstrip] in IH |- *. rewrite Hst in IH |- *.
    pose proof (split_starts t' Hst' Hne) as Hwords.
    rewrite (lstrip_id t' Hst') in IH.
    destruct (Str.split t') as [|w ws]; [congruence|].
    change (String.concat " " (String c "" :: w :: ws))
      with (String c "" ++ " " ++ String.concat " " (w :: ws)).
    rewrite IH. reflexivity.
  - rewrite (lstrip_id t Hst) in IH.
    destruct (Str.split t) as [|w ws] eqn:Hsplit.
    + simpl in IH. now rewrite <- IH.
    + rewrite concat_cons_word, IH. reflexivity.
Qed.

Lemma split_words_nonempty s :
  Forall (fun w => w <> "") (Str.split s).
Proof.
  induction s as [|c s IH]; simpl; [constructor|].
  destruct (Char.isspace c); [exact IH|].
  destruct (Str.starts_with Char.isspace s).
  - constructor; [discriminate | exact IH].
  - destruct (Str.split s) as [|w ws]; constructor;
      try discriminate; try constructor.
    now inversion IH.
Qed.

Lemma split_nil_iff s : Str.split s = [] <-> Str.all Char.isspace s = true.
Proof.
  induction s as [|c s IH]; simpl; [tauto|].
  destruct (Char.isspace c); simpl; [exact IH|].
  split; [|discriminate].
  destruct (Str.starts_with Char.isspace s); [discriminate|].
  destruct (Str.split s); discriminate.
Qed.

Lemma clean_text_join s : _clean_text s = String.concat " " (Str.split s).
Proof.
  rewrite <- (split_clean_text s).
  rewrite squeezed_join.
  - symmetry. apply lstrip_id, clean_text_starts.
  - apply clean_text_squeezed.
  - unfold _clean_text, Str.strip. apply rstrip_idem.
Qed.

End CleanSplit.

(** X1. [_clean_text] returns the words of the text, in the sense of
    [str.split()], joined by single spaces; so cleaning keeps the words of a
    text. *)
Theorem clean_text_is_join_of_split (s : string) :
  _clean_text s = String.concat " " (Str.split s) /\
  Str.split (_clean_text s) = Str.split s.
Proof.
  assert (Hsplit : Str.split (_clean_text s) = Str.split s).
  { unfold _clean_text, Str.strip, Str.sub_ws.
    now rewrite split_rstrip, split_lstrip, split_sub_ws_from. }
  split; [|exact Hsplit].
  rewrite <- Hsplit, squeezed_join.
  - symmetry. apply lstrip_id, clean_text_starts.
  - apply clean_text_squeezed.
  - unfold _clean_text, Str.strip. apply rstrip_idem.
Qed.

(** X2. The cleaned text is empty exactly when the text holds nothing but
    whitespace; otherwise it starts and ends with a character that is not
    whitespace. *)
Theorem clean_text_empty_iff (s : string) :
  (_clean_text s = "" <-> Str.all Char.isspace s = true) /\
  Str.starts_with Char.isspace (_clean_text s) = false /\
  Str.rstrip (_clean_text s) = _clean_text s.
Proof.
  split; [|split].
  - rewrite clean_text_join, <- split_nil_iff.
    pose proof (split_words_nonempty s) as Hw.
    destruct (Str.split s) as [|w ws]; [tauto|].
    split; [|discriminate]. intros H. exfalso.
    inversion Hw as [|? ? Hne _]; subst. apply Hne.
    destruct ws; simpl in H; [exact H|].
    destruct w; [reflexivity | discriminate].
  - apply clean_text_starts.
  - unfold _clean_text, Str.strip. apply rstrip_idem.
Qed.

(** ** The validity filter, the size levels and the heading pattern *)

Section FilterAndLevels.

Lemma all_digits_no_alpha t :
  Str.all Char.isdigit t = true -> Str.any Char.isalpha t = false.
Proof.
  induction t as [|c t IH]; simpl; [reflexivity|].
  intros H. apply andb_true_iff in H as [Hc Ht].
  now rewrite (digit_not_alpha c Hc), IH.
Qed.

Lemma nth_error_lt {A} (l : list A) n x :
  nth_error l n = Some x -> (n < List.length l)%nat.
Proof. intros H. apply nth_error_Some. congruence. Qed.

Lemma index_decreasing l :
  StronglySorted Qgt l ->
  forall i x size,
    nth_error l i = Some x -> size == x ->
    index size l = Some (Z.of_nat i).
Proof.
  induction 1 as [|y l Hs IH Hy]; intros i x sz Hi Hsz.
  - destruct i; discriminate.
  - destruct i as [|i]; simpl in Hi |- *.
    + inversion Hi; subst y.
      assert (H : Qeq_bool x sz = true)
        by (apply Qeq_bool_iff; now symmetry).
      now rewrite H.
    + assert (Hlt : (x < y)%Q).
      { rewrite Forall_forall in Hy. apply Hy. eapply nth_error_In; eauto. }
      destruct (Qeq_bool y sz) eqn:Heq.
      * exfalso. apply Qeq_bool_iff in Heq.
        apply (Qlt_irrefl x). rewrite <- Hsz at 2. now rewrite <- Heq.
      * rewrite (IH i x sz Hi Hsz). simpl. f_equal. lia.
Qed.

Lemma level_sizes_sorted self flattened :
  StronglySorted Qgt (level_sizes_of self flattened).
Proof.
  unfold level_sizes_of.
  destruct (slice_to_prefix (sorted_reverse (keys (size_to_lines flattened)))
              (heading_levels self + 1)) as [n ->].
  apply firstn_sorted, sorted_reverse_sorted.
  now destruct (keys_spec flattened).
Qed.

(** The tail scanner stops where a text ends that is made of digits and of
    dots that digits follow, provided it reads nothing of what comes next. *)
Lemma dotted_tail_app n :
  forall g, (String.length g <= n)%nat -> dotted_rest g = true ->
  forall r, dotted_tail r = (EmptyString, r) ->
  dotted_tail (g ++ r) = (g, r).
Proof.
  induction n as [|n IH]; intros g Hlen Hg r Hr.
  - destruct g; [exact Hr | simpl in Hlen; lia].
  - destruct g as [|c g]; [exact Hr|]. simpl in *.
    destruct (Char.isdigit c) eqn:Hc.
    + now rewrite (IH g ltac:(lia) Hg r Hr).
    + destruct (Ascii.eqb c "."); [|discriminate].
      destruct g as [|d g]; [discriminate|]. simpl in *.
      apply andb_true_iff in Hg as [Hd Hg]. rewrite Hd.
      now rewrite (IH g ltac:(lia) Hg r Hr).
Qed.

Lemma heading_pattern_no_match_dot g c rest :
  dotted_number g -> Char.isdigit c = false ->
  heading_pattern_match (g ++ "." ++ String c rest) = None.
Proof.
  intros Hg Hc.
  destruct (dotted_number_shape g Hg) as (c0 & g' & -> & Hc0 & Hg').
  simpl. rewrite Hc0.
  rewrite (dotted_tail_app _ g' (le_n _) Hg').
  - reflexivity.
  - simpl. now rewrite Hc.
Qed.

End FilterAndLevels.

(** X3. In [_is_valid_heading] the all-digit test never decides: a text made
    of digits holds no letter, so a text is valid exactly when it is not a
    match of the date pattern and holds a letter.  An empty text is never
    valid. *)
Theorem valid_heading_iff_letter_and_not_date (text : string) :
  (all_digits text = true -> Str.any Char.isalpha text = false) /\
  _is_valid_heading text
  = negb (date_like text) && Str.any Char.isalpha text /\
  (_is_valid_heading text = true <->
   ~ date_pattern text /\ Str.any Char.isalpha text = true) /\
  _is_valid_heading "" = false.
Proof.
  assert (Hd : all_digits text = true -> Str.any Char.isalpha text = false).
  { unfold all_digits. intros H. apply andb_true_iff in H as [_ H].
    now apply all_digits_no_alpha. }
  assert (Heq : _is_valid_heading text
                = negb (date_like text) && Str.any Char.isalpha text).
  { unfold _is_valid_heading. destruct (date_like text); [reflexivity|].
    destruct (all_digits text); [|reflexivity]. now rewrite Hd. }
  split; [exact Hd|]. split; [exact Heq|]. split; [|reflexivity].
  rewrite Heq, andb_true_iff, negb_true_iff, <- date_like_correct.
  destruct (date_like text); intuition congruence.
Qed.

Lemma valid_heading_iff_letter_and_not_date_witness :
  all_digits "2024" = true /\
  Str.any Char.isalpha "2024" = false /\
  _is_valid_heading "2024" = false.
Proof.
  destruct (valid_heading_iff_letter_and_not_date "2024")
    as (Hd & Heq & _).
  split; [reflexivity|]. split; [now apply Hd|].
  rewrite Heq, (Hd eq_refl). apply andb_false_r.
Defined.

(** X4. [_size_to_level] returns -1 or an index of the table, never
    anything else; it returns -1 exactly when no entry of the table equals
    the size. *)
Theorem size_to_level_range (size : Q) (level_sizes : list Q) :
  -1 <= _size_to_level size level_sizes
     < Z.of_nat (List.length level_sizes) /\
  (_size_to_level size level_sizes = -1 <->
   forall y, In y level_sizes -> ~ y == size).
Proof.
  unfold _size_to_level.
  destruct (index size level_sizes) as [i|] eqn:Hi.
  - destruct (index_Some _ _ _ Hi) as (n & y & -> & Hn & Hy & _).
    pose proof (nth_error_lt _ _ _ Hn). split; [lia|].
    split; [lia|]. intros Hnone. exfalso.
    apply (Hnone y); [eapply nth_error_In; eauto | exact Hy].
  - split; [lia|]. split; [intros _; now apply index_None | reflexivity].
Qed.

(** X5. In the level size table the classifier builds, the entry at index
    [i] and every size equal to it have size level [i]: no entry hides
    another one. *)
Theorem level_sizes_lookup (self : PDFOutlineExtractor)
    (flattened : list Segment) (i : nat) (x size : Q) :
  nth_error (level_sizes_of self flattened) i = Some x ->
  size == x ->
  _size_to_level size (level_sizes_of self flattened) = Z.of_nat i.
Proof.
  intros Hi Hsize. unfold _size_to_level.
  now rewrite (index_decreasing _ (level_sizes_sorted self flattened)
                 i x size Hi Hsize).
Qed.

Lemma level_sizes_lookup_witness :
  let flattened : list Segment :=
    [("a", 1, 12#1, false); ("b", 1, 20#1, false); ("c", 1, 16#1, false);
     ("d", 2, 24#2, false)] in
  nth_error (level_sizes_of default_extractor flattened) 2 = Some (12#1) /\
  24#2 == 12#1 /\
  _size_to_level (24#2) (level_sizes_of default_extractor flattened) = 2.
Proof.
  intros flattened.
  assert (Hi : nth_error (level_sizes_of default_extractor flattened) 2
               = Some (12#1)) by reflexivity.
  assert (Hsize : 24#2 == 12#1) by reflexivity.
  split; [exact Hi|]. split; [exact Hsize|].
  exact (level_sizes_lookup default_extractor flattened 2 (12#1) (24#2)
           Hi Hsize).
Defined.

(** X6. A dotted number followed by a dot and then by anything but a digit,
    as in "1. Introduction", is not a numeric heading: the heading pattern
    does not match, the numeric level is 0 and the level of the line is its
    size level. *)
Theorem numbered_with_trailing_dot_not_numeric (self : PDFOutlineExtractor)
    (level_sizes : list Q) (g rest : string) (c : ascii) (page : Z)
    (size : Q) (bold : bool) :
  dotted_number g ->
  Char.isdigit c = false ->
  num_level (g ++ "." ++ String c rest) = 0 /\
  resolve_level self level_sizes (g ++ "." ++ String c rest, page, size, bold)
  = _size_to_level size level_sizes.
Proof.
  intros Hg Hc.
  assert (H0 : num_level (g ++ "." ++ String c rest) = 0).
  { unfold num_level. now rewrite heading_pattern_no_match_dot. }
  split; [exact H0|]. unfold resolve_level. now rewrite H0.
Qed.

Lemma numbered_with_trailing_dot_not_numeric_witness :
  dotted_number "1" /\
  Char.isdigit " " = false /\
  num_level "1. Introduction" = 0 /\
  resolve_level default_extractor [20#1; 16#1]
    ("1. Introduction", 2, 16#1, false) = 1 /\
  num_level "1 Introduction" = 1.
Proof.
  assert (Hg : dotted_number "1").
  { apply dotted_first. split; [discriminate | reflexivity]. }
  assert (Hc : Char.isdigit " " = false) by reflexivity.
  destruct (numbered_with_trailing_dot_not_numeric default_extractor
              [20#1; 16#1] "1" "Introduction" " " 2 (16#1) false Hg Hc)
    as [H0 Hlevel].
  split; [exact Hg|]. split; [exact Hc|]. split; [exact H0|].
  split; [|reflexivity]. exact (eq_trans Hlevel eq_refl).
Defined.

(** ** The outline and the title of a result *)

Section Subsequences.

Context {A : Type}.

Lemma subseq_refl (l : list A) : subseq l l.
Proof. induction l; [constructor | now constructor 3]. Qed.

Lemma subseq_nil_l (l : list A) : subseq [] l.
Proof. induction l; constructor; auto. Qed.

Lemma subseq_trans (l1 l2 l3 : list A) :
  subseq l1 l2 -> subseq l2 l3 -> subseq l1 l3.
Proof.
  intros H12 H23. revert l1 H12.
  induction H23 as [|x l2 l3 H IH|x l2 l3 H IH]; intros l1 H12.
  - exact H12.
  - constructor. now apply IH.
  - inversion H12; subst.
    + constructor. now apply IH.
    + constructor 3. now apply IH.
Qed.

Lemma subseq_length (l1 l2 : list A) :
  subseq l1 l2 -> (List.length l1 <= List.length l2)%nat.
Proof. induction 1; simpl; lia. Qed.

Lemma subseq_In (l1 l2 : list A) x : subseq l1 l2 -> In x l1 -> In x l2.
Proof.
  induction 1 as [|y l1 l2 H IH|y l1 l2 H IH]; simpl; auto.
  intros [->|Hx]; auto.
Qed.

Lemma subseq_cons_app (x : A) (l1 l2 : list A) (keep : bool) :
  subseq l1 l2 -> subseq ((if keep then [x] else []) ++ l1) (x :: l2).
Proof. destruct keep; simpl; intros H; [constructor 3 | constructor]; auto. Qed.

End Subsequences.

Section Outline.

Variable self : PDFOutlineExtractor.
Variable level_sizes : list Q.

Lemma classify_fold_headings l :
  forall hs tc,
  exists segs,
    subseq segs l /\ Forall (heading_line self level_sizes) segs /\
    fst (fold_left (classify_step self level_sizes) l (hs, tc))
    = (hs ++ map (fun seg => heading_of (resolve_level self level_sizes seg)
                                        seg) segs)%list.
Proof.
  induction l as [|seg l IH]; intros hs tc; cbn [fold_left].
  - exists []. split; [constructor|]. split; [constructor|].
    simpl. now rewrite app_nil_r.
  - pose proof (classify_step_headings self level_sizes hs tc seg) as Hstep.
    destruct (classify_step self level_sizes (hs, tc) seg) as [hs' tc'].
    simpl in Hstep. destruct (IH hs' tc') as (segs & Hsub & Hall & Heq).
    destruct Hstep as [->|(lvl & -> & Hrange & Hvalid & ->)].
    + exists segs. split; [now constructor|]. auto.
    + exists (seg :: segs). split; [now constructor 3|].
      split; [constructor; [split|]; auto|].
      rewrite Heq, <- app_assoc. reflexivity.
Qed.

End Outline.

Section DedupFacts.

Lemma dedup_fold_map {A} (f : A -> Heading) (l : list A) :
  forall deduped last,
  exists l',
    subseq l' l /\
    fst (fold_left dedup_step (map f l) (deduped, last))
    = (deduped ++ map f l')%list.
Proof.
  induction l as [|x l IH]; intros deduped last; simpl.
  - exists []. split; [constructor | now rewrite app_nil_r].
  - match goal with
    | |- context [fold_left dedup_step _ (if ?k then _ else _, _)] =>
        destruct k eqn:Hkeep
    end.
    + destruct (IH (deduped ++ [f x])%list (Some (f x))) as (l' & Hsub & Heq).
      exists (x :: l'). split; [now constructor 3|].
      rewrite Heq, <- app_assoc. reflexivity.
    + destruct (IH deduped (Some (f x))) as (l' & Hsub & Heq).
      exists l'. split; [now constructor | exact Heq].
Qed.

Lemma dedup_ends l :
  forall a, exists deduped, dedup (l ++ [a]) = (deduped ++ [a])%list.
Proof.
  induction l as [|x l IH] using rev_ind; intros a.
  - now exists [].
  - rewrite <- app_assoc. simpl. rewrite dedup_snoc2.
    destruct (Heading_eqb_spec a x) as [->|Hne].
    + rewrite app_nil_r. apply IH.
    + eexists. reflexivity.
Qed.

Lemma no_repeat_snoc {A} (l : list A) (b : A) :
  no_repeat l ->
  (forall l' x, l = (l' ++ [x])%list -> x <> b) ->
  no_repeat (l ++ [b]).
Proof.
  intros Hl Hlast l1 p q l2 Heq.
  destruct l2 as [|z l2 _] using rev_ind.
  - change (l1 ++ [p; q])%list with (l1 ++ [p] ++ [q])%list in Heq.
    rewrite app_assoc in Heq. apply app_inj_tail in Heq as [Heq <-].
    now apply (Hlast l1 p).
  - change (l1 ++ p :: q :: l2 ++ [z])%list
      with (l1 ++ (p :: q :: l2) ++ [z])%list in Heq.
    rewrite app_assoc in Heq. apply app_inj_tail in Heq as [Heq _].
    now apply (Hl l1 p q l2).
Qed.

Lemma dedup_no_repeat_out l : no_repeat (dedup l).
Proof.
  induction l as [|b l IH] using rev_ind.
  - intros l1 p q l2 Heq. destruct l1; discriminate.
  - destruct l as [|a l _] using rev_ind.
    + intros l1 p q l2 Heq. destruct l1 as [|? [|? ?]]; discriminate.
    + rewrite <- app_assoc. simpl. rewrite dedup_snoc2.
      destruct (Heading_eqb_spec b a) as [->|Hne].
      * now rewrite app_nil_r.
      * apply no_repeat_snoc; [exact IH|].
        intros l' x Heq. destruct (dedup_ends l a) as (d & Hd).
        rewrite Hd in Heq. apply app_inj_tail in Heq as [_ <-]. congruence.
Qed.

End DedupFacts.

(** X7. The headings of a returned outline come from the observations in
    scan order: the outline is made, one heading for one line and in the same
    order, of some of the observations, each of which has a level between 1
    and [heading_levels] and a valid cleaned text; the heading has the level
    "H" followed by that number, the cleaned text and the page of its line.
    So there are no more headings than observations. *)
Theorem outline_in_scan_order (self : PDFOutlineExtractor)
    (pages_data : list (list Segment)) (out : Outline) :
  let flattened := concat pages_data in
  let level_sizes := level_sizes_of self flattened in
  _process_segments self pages_data = Return out ->
  (exists segs,
      subseq segs flattened /\
      Forall (heading_line self level_sizes) segs /\
      outline out
      = map (fun seg => heading_of (resolve_level self level_sizes seg) seg)
            segs) /\
  (List.length (outline out) <= List.length flattened)%nat.
Proof.
  intros flattened level_sizes Hout.
  rewrite (process_segments_outline _ _ _ Hout).
  fold flattened. fold level_sizes. unfold classify.
  destruct (classify_fold_headings self level_sizes flattened [] "")
    as (segs & Hsub & Hall & ->).
  simpl app.
  destruct (dedup_fold_map
              (fun seg => heading_of (resolve_level self level_sizes seg) seg)
              segs [] None) as (segs' & Hsub' & Heq).
  unfold dedup. rewrite Heq. simpl app.
  assert (Hsub'' : subseq segs' flattened) by (eapply subseq_trans; eauto).
  split.
  - exists segs'. split; [exact Hsub''|]. split; [|reflexivity].
    rewrite Forall_forall in *. intros seg Hseg. apply Hall.
    eapply subseq_In; eauto.
  - rewrite length_map. now apply subseq_length.
Qed.

Lemma outline_in_scan_order_witness :
  let pages_data : list (list Segment) :=
    [[("Report", 1, 20#1, true); ("1  Scope", 1, 12#1, false)];
     [("body", 2, 10#1, false); ("1.1 Goals", 2, 12#1, false)]] in
  let out := {| title := "Report";
                outline := [ mkHeading "H1" "1 Scope" 1;
                             mkHeading "H2" "body" 2;
                             mkHeading "H2" "1.1 Goals" 2 ] |} in
  _process_segments default_extractor pages_data = Return out /\
  (List.length (outline out) <= List.length (concat pages_data))%nat.
Proof.
  intros pages_data out.
  assert (Hout : _process_segments default_extractor pages_data = Return out)
    by reflexivity.
  split; [exact Hout|].
  exact (proj2 (outline_in_scan_order default_extractor pages_data out Hout)).
Defined.

(** X8. A returned outline never holds the same heading twice in a row, and
    deduplicating it again changes nothing. *)
Theorem outline_no_repeat (self : PDFOutlineExtractor)
    (pages_data : list (list Segment)) (out : Outline) :
  _process_segments self pages_data = Return out ->
  no_repeat (outline out) /\ dedup (outline out) = outline out.
Proof.
  intros Hout. rewrite (process_segments_outline _ _ _ Hout).
  split; [apply dedup_no_repeat_out|].
  apply dedup_no_repeat, dedup_no_repeat_out.
Qed.

Lemma outline_no_repeat_witness :
  let pages_data : list (list Segment) :=
    [[("Title", 1, 20#1, true); ("Scope", 2, 16#1, false);
      ("Scope", 2, 16#1, false); ("Scope", 3, 16#1, false)]] in
  let out := {| title := "Title";
                outline := [ mkHeading "H1" "Scope" 2;
                             mkHeading "H1" "Scope" 3 ] |} in
  _process_segments default_extractor pages_data = Return out /\
  no_repeat (outline out) /\ dedup (outline out) = outline out.
Proof.
  intros pages_data out.
  assert (Hout : _process_segments default_extractor pages_data = Return out)
    by reflexivity.
  split; [exact Hout|].
  exact (outline_no_repeat default_extractor pages_data out Hout).
Defined.

Section Raising.

Lemma insert_desc_length x l :
  List.length (insert_desc x l) = S (List.length l).
Proof.
  induction l as [|y l IH]; simpl; [reflexivity|].
  destruct (Qle_bool y x); simpl; [reflexivity | now rewrite IH].
Qed.

Lemma sorted_reverse_length l :
  List.length (sorted_reverse l) = List.length l.
Proof.
  induction l as [|x l IH]; simpl; [reflexivity|].
  now rewrite insert_desc_length, IH.
Qed.

Lemma firstn_nil_iff {A} n (l : list A) :
  l <> [] -> (firstn n l = [] <-> n = 0%nat).
Proof.
  destruct l as [|x l]; [congruence|]. intros _.
  destruct n; simpl; split; intros H; (reflexivity || discriminate).
Qed.

Lemma slice_to_nil_iff {A} (l : list A) stop :
  l <> [] ->
  (slice_to l stop = [] <->
   stop = 0 \/ (stop < 0 /\ Z.of_nat (List.length l) + stop <= 0)).
Proof.
  intros Hne. unfold slice_to. destruct (Z.ltb_spec stop 0).
  - rewrite (firstn_nil_iff _ l Hne). lia.
  - rewrite (firstn_nil_iff _ l Hne). lia.
Qed.

Lemma keys_nonempty flattened :
  flattened <> [] -> keys (size_to_lines flattened) <> [].
Proof.
  intros Hne Hnil. destruct flattened as [|seg l]; [congruence|].
  destruct (keys_spec (seg :: l)) as (_ & HinA & _). simpl in HinA.
  assert (H : InA Qeq (seg_size seg) (keys (size_to_lines (seg :: l)))).
  { apply HinA. now constructor. }
  rewrite Hnil in H. inversion H.
Qed.

Lemma classify_empty_table self flattened :
  heading_levels self < 0 ->
  classify self [] flattened = ([], "").
Proof.
  intros Hh. unfold classify. generalize (@nil Heading, "").
  induction flattened as [|seg l IH]; intros st; [reflexivity|].
  cbn [fold_left].
  assert (Hstep : classify_step self [] st seg = st).
  { destruct st as [hs tc]. unfold classify_step.
    assert (Hlevel : resolve_level self [] seg = -1).
    { destruct seg as [[[t p] sz] b]. unfold resolve_level.
      destruct ((1 <=? num_level t) && (num_level t <=? heading_levels self))
        eqn:Hrange; [|reflexivity].
      apply andb_true_iff in Hrange as [H1 H2].
      apply Z.leb_le in H1, H2. lia. }
    rewrite Hlevel. reflexivity. }
  rewrite Hstep. apply IH.
Qed.

Lemma process_segments_table self pages_data :
  concat pages_data <> [] ->
  (level_sizes_of self (concat pages_data) = [] ->
   _process_segments self pages_data = Raise IndexError) /\
  (level_sizes_of self (concat pages_data) <> [] ->
   exists out, _process_segments self pages_data = Return out).
Proof.
  intros Hne. rewrite process_segments_nonempty by assumption. cbv zeta.
  split; intros Htable.
  - assert (Hh : heading_levels self < 0).
    { destruct (Z.ltb_spec (heading_levels self) 0) as [|Hh]; [assumption|].
      destruct (level_sizes_head self _ Hh Hne) as (x & rest & _ & Heq).
      congruence. }
    rewrite Htable, (classify_empty_table self _ Hh). reflexivity.
  - destruct (level_sizes_of self (concat pages_data)) as [|x tl] eqn:Heq;
      [congruence|].
    destruct (String.eqb_spec
                (snd (classify self (x :: tl) (concat pages_data))) "")
      as [->|Hset].
    + rewrite title_fallback_unset. simpl. eauto.
    + rewrite title_fallback_set by assumption. simpl. eauto.
Qed.

End Raising.

(** X9. [_process_segments] raises, and then [IndexError] on line 174,
    exactly when there is an observation and the level size table is empty:
    that is when [heading_levels] is -1, or is smaller and the number of
    distinct font sizes does not exceed [-(heading_levels + 1)].  It never
    raises with a number of heading levels that is not negative. *)
Theorem process_segments_raises_iff (self : PDFOutlineExtractor)
    (pages_data : list (list Segment)) :
  let flattened := concat pages_data in
  let distinct := Z.of_nat (List.length (keys (size_to_lines flattened))) in
  _process_segments self pages_data = Raise IndexError <->
  flattened <> [] /\
  (heading_levels self = -1 \/
   (heading_levels self < -1 /\ distinct <= - (heading_levels self + 1))).
Proof.
  intros flattened distinct.
  assert (Htable : flattened <> [] ->
            (level_sizes_of self flattened = [] <->
             heading_levels self = -1 \/
             (heading_levels self < -1
              /\ distinct <= - (heading_levels self + 1)))).
  { intros Hne. unfold level_sizes_of. rewrite slice_to_nil_iff.
    - rewrite sorted_reverse_length. subst distinct. lia.
    - intros Hnil. apply (keys_nonempty flattened Hne).
      apply length_zero_iff_nil. rewrite <- sorted_reverse_length.
      now rewrite Hnil. }
  split.
  - intros Hraise.
    assert (Hne : flattened <> []).
    { intros Hnil. unfold _process_segments in Hraise. fold flattened in Hraise.
      rewrite Hnil in Hraise. discriminate. }
    split; [exact Hne|]. apply Htable; [exact Hne|].
    destruct (level_sizes_of self flattened) as [|x tl] eqn:Heq;
      [reflexivity|].
    destruct (proj2 (process_segments_table self pages_data Hne)) as [out Hout].
    + fold flattened. rewrite Heq. discriminate.
    + congruence.
  - intros [Hne Hcond].
    apply (proj1 (process_segments_table self pages_data Hne)).
    now apply Htable.
Qed.

Lemma process_segments_raises_iff_witness :
  let self := {| max_pages := 50; heading_levels := -3 |} in
  let pages_data : list (list Segment) :=
    [[("a", 1, 20#1, false); ("b", 1, 12#1, false)]] in
  _process_segments self pages_data = Raise IndexError /\
  _process_segments self
    [[("a", 1, 20#1, false); ("b", 1, 12#1, false); ("c", 1, 10#1, false)]]
  = Return {| title := "a"; outline := [] |}.
Proof.
  intros self pages_data. split; [|reflexivity].
  apply (process_segments_raises_iff self pages_data).
  split; [discriminate|]. right. simpl. lia.
Defined.

(** X10. The title of a result computed from at least one observation is
    always the cleaned text of one of the observations: of an accepted title
    candidate with a text that is not empty, or else of a line whose font
    size equals index 0 of the level size table. *)
Theorem title_from_observation (self : PDFOutlineExtractor)
    (pages_data : list (list Segment)) (out : Outline) :
  let flattened := concat pages_data in
  let level_sizes := level_sizes_of self flattened in
  _process_segments self pages_data = Return out ->
  flattened <> [] ->
  exists seg,
    In seg flattened /\
    title out = _clean_text (seg_text seg) /\
    ((accepted self level_sizes seg = true /\ seg_text seg <> "") \/
     (exists large_size,
         nth_error level_sizes 0 = Some large_size /\
         seg_size seg == large_size)).
Proof.
  intros flattened level_sizes Hout Hne.
  rewrite process_segments_nonempty in Hout by assumption. cbv zeta in Hout.
  fold flattened in Hout. fold level_sizes in Hout.
  pose proof (classify_fold_title self level_sizes flattened [] "") as Htc.
  fold (classify self level_sizes flattened) in Htc.
  unfold str_or in Htc. simpl in Htc.
  destruct (find _ flattened) as [seg|] eqn:Hfind.
  - apply find_some in Hfind as [Hin Hacc].
    apply andb_true_iff in Hacc as [Hacc Htext].
    apply negb_true_iff, String.eqb_neq in Htext.
    rewrite title_fallback_set in Hout by congruence.
    simpl in Hout. inversion Hout; subst out. simpl.
    exists seg. rewrite Htc. auto.
  - rewrite Htc in Hout.
    destruct level_sizes as [|large_size tl] eqn:Htable; [discriminate|].
    rewrite title_fallback_unset in Hout. simpl in Hout.
    inversion Hout; subst out. simpl.
    destruct (level_sizes_prefix self flattened large_size)
      as (rest & tl' & Hsorted & _).
    { fold level_sizes. now rewrite Htable. }
    destruct (sorted_head_max flattened large_size rest Hsorted)
      as (_ & seg0 & Hseg0 & Hsize0).
    destruct (find_some_of_In
                (fun s => Qeq_bool (seg_size s) large_size)
                flattened seg0 Hseg0) as (seg & Hfind').
    { rewrite Hsize0. apply Qeq_bool_refl. }
    unfold first_text_of_size. rewrite Hfind'.
    apply find_some in Hfind' as [Hin Heq]. apply Qeq_bool_iff in Heq.
    exists seg. split; [exact Hin|]. split; [reflexivity|].
    right. exists large_size. auto.
Qed.

Lemma title_from_observation_witness :
  let pages_data : list (list Segment) :=
    [[("small print", 3, 8#1, false); (" The  Title ", 3, 18#1, false)]] in
  let out := {| title := "The Title";
                outline := [ mkHeading "H1" "small print" 3 ] |} in
  _process_segments default_extractor pages_data = Return out /\
  concat pages_data <> [] /\
  exists seg,
    In seg (concat pages_data) /\ title out = _clean_text (seg_text seg).
Proof.
  intros pages_data out.
  assert (Hout : _process_segments default_extractor pages_data = Return out)
    by reflexivity.
  assert (Hne : concat pages_data <> []) by discriminate.
  split; [exact Hout|]. split; [exact Hne|].
  destruct (title_from_observation default_extractor pages_data out Hout Hne)
    as (seg & Hin & Htitle & _).
  exists seg. auto.
Defined.

(** ** The PyMuPDF backend *)

Section PyMuPDFLines.

Lemma strip_idem s : Str.strip (Str.strip s) = Str.strip s.
Proof.
  unfold Str.strip.
  rewrite (lstrip_id (Str.rstrip (Str.lstrip s)))
    by apply rstrip_starts, lstrip_starts.
  apply rstrip_idem.
Qed.

Lemma stripped_starts t :
  Str.strip t = t -> Str.starts_with Char.isspace t = false.
Proof.
  intros <-. unfold Str.strip. apply rstrip_starts, lstrip_starts.
Qed.

Lemma stripped_rstrip t : Str.strip t = t -> Str.rstrip t = t.
Proof.
  intros H. rewrite <- H at 1. unfold Str.strip.
  rewrite rstrip_idem. exact H.
Qed.

Lemma rstrip_cons c s :
  Str.rstrip (String c s)
  = match Str.rstrip s with
    | EmptyString =>
        if Char.isspace c then EmptyString else String c EmptyString
    | r => String c r
    end.
Proof. reflexivity. Qed.

Lemma rstrip_app_blank a b :
  Str.rstrip b = "" -> Str.rstrip (a ++ b) = Str.rstrip a.
Proof.
  intros Hb. induction a as [|c a IH]; [exact Hb|].
  change (String c a ++ b) with (String c (a ++ b)).
  now rewrite !rstrip_cons, IH.
Qed.

Lemma rstrip_app_nonblank a b :
  Str.rstrip b <> "" -> Str.rstrip (a ++ b) = a ++ Str.rstrip b.
Proof.
  intros Hb. induction a as [|c a IH]; [reflexivity|].
  change (String c a ++ b) with (String c (a ++ b)).
  rewrite rstrip_cons, IH.
  destruct (a ++ Str.rstrip b) eqn:Heq.
  - destruct a; simpl in Heq; [congruence | discriminate].
  - simpl. now rewrite Heq.
Qed.

Lemma concat_nonempty t ts : t <> "" -> String.concat " " (t :: ts) <> "".
Proof.
  intros Ht. destruct ts; simpl; [exact Ht|].
  destruct t; [congruence | discriminate].
Qed.

Lemma rstrip_spaced ts :
  ts <> [] ->
  Forall (fun t => t <> "" /\ Str.strip t = t) ts ->
  Str.rstrip (spaced ts) = String.concat " " ts.
Proof.
  induction ts as [|t ts IH]; [congruence|]. intros _ Hall.
  inversion Hall as [|? ? [Hne Ht] Hall']; subst.
  destruct ts as [|t' ts].
  - simpl. rewrite app_nil_r_s, rstrip_app_blank by reflexivity.
    now apply stripped_rstrip.
  - specialize (IH ltac:(discriminate) Hall').
    change (spaced (t :: t' :: ts)) with ((t ++ " ") ++ spaced (t' :: ts)).
    rewrite rstrip_app_nonblank, IH, app_assoc_s; [reflexivity|].
    rewrite IH. apply concat_nonempty.
    now inversion Hall' as [|? ? [H _] _].
Qed.

Lemma strip_spaced ts :
  ts <> [] ->
  Forall (fun t => t <> "" /\ Str.strip t = t) ts ->
  Str.strip (spaced ts) = String.concat " " ts.
Proof.
  intros Hne Hall. unfold Str.strip. rewrite lstrip_id.
  - now apply rstrip_spaced.
  - destruct ts as [|t ts]; [congruence|].
    inversion Hall as [|? ? [Ht Hs] _]; subst.
    pose proof (stripped_starts t Hs) as Hst.
    destruct t; [congruence|]. exact Hst.
Qed.

Lemma span_step_eq line_text sizes bold_flags sp :
  span_step (line_text, sizes, bold_flags) sp
  = if nonblank sp
    then (line_text ++ (Str.strip (span_text sp) ++ " "),
          (sizes ++ [span_size sp])%list,
          (bold_flags ++ [is_bold_font (span_font sp)])%list)
    else (line_text, sizes, bold_flags).
Proof.
  unfold span_step, nonblank.
  now destruct (String.eqb (Str.strip (span_text sp)) "").
Qed.

Lemma span_fold line :
  forall line_text sizes bold_flags,
    fold_left span_step line (line_text, sizes, bold_flags)
    = (line_text
         ++ spaced (map (fun sp => Str.strip (span_text sp))
                        (filter nonblank line)),
       (sizes ++ map span_size (filter nonblank line))%list,
       (bold_flags
          ++ map (fun sp => is_bold_font (span_font sp))
                 (filter nonblank line))%list).
Proof.
  induction line as [|sp line IH]; intros lt sz bf; cbn [fold_left filter].
  - cbn [map spaced]. now rewrite app_nil_r_s, !app_nil_r.
  - rewrite span_step_eq. destruct (nonblank sp).
    + rewrite IH. cbn [map spaced].
      rewrite app_assoc_s, <- !app_assoc. reflexivity.
    + apply IH.
Qed.

Lemma sum_flags_from flags :
  forall acc,
    fold_left (fun acc (b : bool) => acc + (if b then 1 else 0)) flags acc
    = acc + Z.of_nat (List.length (filter (fun b : bool => b) flags)).
Proof.
  induction flags as [|b flags IH]; intros acc; simpl; [lia|].
  rewrite IH. destruct b; simpl; lia.
Qed.

Lemma majority_count flags :
  flags <> [] ->
  majority flags
  = (Z.of_nat (List.length flags)
     <? 2 * Z.of_nat (List.length (filter (fun b : bool => b) flags))).
Proof.
  intros Hne. unfold majority, sum_flags, Qle_bool. cbn [Qnum Qden].
  rewrite sum_flags_from.
  assert (Hpos : Z.pos (Pos.of_nat (List.length flags))
                 = Z.of_nat (List.length flags)).
  { destruct flags; [congruence|]. cbn [List.length].
    rewrite <- Pos.of_nat_succ. lia. }
  rewrite Hpos.
  destruct (Z.leb_spec
              ((0 + Z.of_nat (List.length (filter (fun b : bool => b) flags)))
               * 2)
              (1 * Z.of_nat (List.length flags)));
    destruct (Z.ltb_spec
                (Z.of_nat (List.length flags))
                (2 * Z.of_nat (List.length
                                 (filter (fun b : bool => b) flags))));
    simpl; (reflexivity || lia).
Qed.

Lemma filter_map_length {A} (f : A -> bool) (l : list A) :
  List.length (filter (fun b : bool => b) (map f l))
  = List.length (filter f l).
Proof.
  induction l as [|x l IH]; simpl; [reflexivity|].
  destruct (f x); simpl; now rewrite IH.
Qed.

Lemma nonblank_texts line :
  Forall (fun t => t <> "" /\ Str.strip t = t)
         (map (fun sp => Str.strip (span_text sp)) (filter nonblank line)).
Proof.
  apply Forall_forall. intros t Ht.
  apply in_map_iff in Ht as (sp & <- & Hsp).
  apply filter_In in Hsp as [_ Hsp]. unfold nonblank in Hsp.
  apply negb_true_iff, String.eqb_neq in Hsp.
  split; [exact Hsp | apply strip_idem].
Qed.

End PyMuPDFLines.

(** X11. The PyMuPDF backend makes at most one segment of a line, from the
    spans whose stripped text is not empty: no segment when there is no such
    span; otherwise the segment whose text is the stripped span texts joined
    by single spaces, whose page is the page index plus 1, whose size is the
    average of the sizes of those spans, and which is bold exactly when
    strictly more than half of those spans have a font name that holds
    "Bold" or "Black". *)
Theorem pymupdf_line_spec (mean : list Q -> Q) (page_num : Z) (line : Line) :
  let spans := filter nonblank line in
  pymupdf_line mean page_num line
  = if is_nil spans then []
    else [(String.concat " " (map (fun sp => Str.strip (span_text sp)) spans),
           page_num + 1,
           mean (map span_size spans),
           Z.of_nat (List.length spans)
           <? 2 * Z.of_nat (List.length
                              (filter (fun sp => is_bold_font (span_font sp))
                                      spans)))].
Proof.
  intros spans. unfold pymupdf_line. rewrite span_fold. fold spans.
  cbn [app append].
  destruct spans as [|sp rest] eqn:Hspans; [reflexivity|].
  pose proof (nonblank_texts line) as Htexts. fold spans in Htexts.
  rewrite Hspans in Htexts.
  rewrite strip_spaced by (auto; discriminate).
  assert (Hne : String.concat " "
                  (map (fun sp => Str.strip (span_text sp)) (sp :: rest))
                <> "").
  { cbn [map]. apply concat_nonempty.
    now inversion Htexts as [|? ? [H _] _]. }
  apply String.eqb_neq in Hne. rewrite Hne.
  rewrite majority_count by discriminate.
  rewrite (filter_map_length (fun sp => is_bold_font (span_font sp))
             (sp :: rest)).
  rewrite length_map. reflexivity.
Qed.

Section PyMuPDFPages.

Variable mean : list Q -> Q.

(** What every segment of the backend satisfies. *)
Lemma pymupdf_line_seg page_num line seg :
  In seg (pymupdf_line mean page_num line) ->
  seg_page seg = page_num + 1 /\
  seg_text seg <> "" /\ Str.strip (seg_text seg) = seg_text seg.
Proof.
  unfold pymupdf_line.
  destruct (fold_left span_step line ("", [], [])) as [[lt sz] bf].
  destruct (negb (String.eqb (Str.strip lt) "") && negb (is_nil sz))
    eqn:Hguard; [|contradiction].
  intros [<-|[]]. simpl.
  apply andb_true_iff in Hguard as [Hne _].
  apply negb_true_iff, String.eqb_neq in Hne.
  split; [reflexivity|]. split; [exact Hne | apply strip_idem].
Qed.

Lemma pymupdf_page_seg page_num page seg :
  In seg (pymupdf_page mean page_num page) ->
  seg_page seg = page_num + 1 /\
  seg_text seg <> "" /\ Str.strip (seg_text seg) = seg_text seg.
Proof.
  unfold pymupdf_page. intros H.
  apply in_flat_map in H as ([lines|] & _ & H); [|contradiction].
  apply in_flat_map in H as (line & _ & H).
  now apply pymupdf_line_seg in H.
Qed.

Lemma is_nil_false {A} (l : list A) : is_nil l = false <-> l <> [].
Proof. destruct l; simpl; split; (congruence || discriminate). Qed.

Lemma pymupdf_pages_spec pages :
  forall page_num,
    Forall (fun segments =>
              segments <> [] /\
              exists p,
                page_num < p <= page_num + Z.of_nat (List.length pages) /\
                forall seg, In seg segments ->
                  seg_page seg = p /\ seg_text seg <> "" /\
                  Str.strip (seg_text seg) = seg_text seg)
           (pymupdf_pages mean page_num pages) /\
    pages_ascending (pymupdf_pages mean page_num pages) /\
    (List.length (pymupdf_pages mean page_num pages)
     <= List.length pages)%nat.
Proof.
  induction pages as [|pg pages IH]; intros k; cbn [pymupdf_pages].
  - split; [constructor|]. split; [constructor | simpl; lia].
  - destruct (IH (k + 1)) as (Hall & Hasc & Hlen).
    assert (Hall' :
      Forall (fun segments =>
                segments <> [] /\
                exists p,
                  k + 1 < p <= k + Z.of_nat (List.length (pg :: pages)) /\
                  forall seg, In seg segments ->
                    seg_page seg = p /\ seg_text seg <> "" /\
                    Str.strip (seg_text seg) = seg_text seg)
             (pymupdf_pages mean (k + 1) pages)).
    { eapply Forall_impl; [|exact Hall]. cbn beta.
      intros segs (Hne & p & Hp & Hsegs). split; [exact Hne|].
      exists p. split; [|exact Hsegs]. cbn [List.length]. lia. }
    destruct (is_nil (pymupdf_page mean k pg)) eqn:Hnil; cbn [app].
    + split; [|split; [exact Hasc | cbn [List.length]; lia]].
      eapply Forall_impl; [|exact Hall']. cbn beta.
      intros segs (Hne & p & Hp & Hsegs). split; [exact Hne|].
      exists p. split; [lia | exact Hsegs].
    + apply is_nil_false in Hnil.
      split; [|split; [|cbn [List.length]; lia]].
      * constructor.
        -- split; [exact Hnil|]. exists (k + 1).
           split; [cbn [List.length]; lia|].
           intros seg Hseg. now apply pymupdf_page_seg in Hseg.
        -- eapply Forall_impl; [|exact Hall']. cbn beta.
           intros segs (Hne & p & Hp & Hsegs). split; [exact Hne|].
           exists p. split; [lia | exact Hsegs].
      * constructor; [exact Hasc|].
        rewrite Forall_forall in Hall' |- *.
        intros later Hlater s1 s2 Hs1 Hs2.
        destruct (Hall' later Hlater) as (_ & p & Hp & Hsegs).
        apply pymupdf_page_seg in Hs1 as [-> _].
        destruct (Hsegs s2 Hs2) as [-> _]. lia.
Qed.

Lemma scanned_pages_length self (doc : Doc) :
  scanned_pages self doc <> [] ->
  Z.of_nat (List.length (scanned_pages self doc))
  = Z.min (Z.of_nat (List.length doc)) (max_pages self).
Proof.
  unfold scanned_pages. intros Hne.
  rewrite length_firstn.
  destruct (Z.to_nat (Z.min (Z.of_nat (List.length doc)) (max_pages self)))
    eqn:Hn; [now rewrite firstn_O in Hne|].
  lia.
Qed.

Lemma scanned_pages_firstn self (doc : Doc) :
  scanned_pages self (firstn (Z.to_nat (max_pages self)) doc)
  = scanned_pages self doc.
Proof.
  unfold scanned_pages. rewrite length_firstn, firstn_firstn.
  f_equal. lia.
Qed.

Lemma find_ext_in {A} (f g : A -> bool) l :
  (forall x, In x l -> f x = g x) -> find f l = find g l.
Proof.
  induction l as [|x l IH]; intros H; simpl; [reflexivity|].
  rewrite (H x) by now left.
  destruct (g x); [reflexivity|]. apply IH. intros y Hy. apply H. now right.
Qed.

(** With texts that are not empty, the first accepted line is the title
    candidate. *)
Lemma first_accepted_wins self level_sizes flattened seg :
  (forall s, In s flattened -> seg_text s <> "") ->
  find (accepted self level_sizes) flattened = Some seg ->
  snd (classify self level_sizes flattened) = seg_text seg.
Proof.
  intros Htexts Hfind. unfold classify. rewrite classify_fold_title.
  rewrite (find_ext_in _ (accepted self level_sizes)), Hfind; [reflexivity|].
  intros s Hs. apply Htexts in Hs. apply String.eqb_neq in Hs.
  rewrite Hs. apply andb_true_r.
Qed.

Lemma accepted_table self level_sizes seg :
  accepted self level_sizes seg = true -> level_sizes <> [].
Proof.
  unfold accepted. intros H. apply andb_true_iff in H as [H _].
  apply Z.eqb_eq in H. intros ->.
  destruct seg as [[[t p] sz] b]. unfold resolve_level in H.
  destruct ((1 <=? num_level t) && (num_level t <=? heading_levels self))
    eqn:Hrange.
  - apply andb_true_iff in Hrange as [H1 _]. apply Z.leb_le in H1. lia.
  - discriminate.
Qed.

Lemma stripped_clean_nonempty t :
  t <> "" -> Str.strip t = t -> _clean_text t <> "".
Proof.
  intros Hne Hs Hclean.
  assert (Hall : Str.all Char.isspace t = true).
  { apply split_nil_iff. rewrite <- split_clean_text, Hclean. reflexivity. }
  pose proof (stripped_starts t Hs) as Hst.
  rewrite (all_space_starts t Hall Hne) in Hst. discriminate.
Qed.

(** The title of a run whose observations have no empty text, when a line
    is accepted. *)
Lemma first_accepted_title self pages_data seg :
  (forall s, In s (concat pages_data) ->
             seg_text s <> "" /\ Str.strip (seg_text s) = seg_text s) ->
  find (accepted self (level_sizes_of self (concat pages_data)))
       (concat pages_data) = Some seg ->
  exists out,
    _process_segments self pages_data = Return out /\
    title out = _clean_text (seg_text seg) /\ title out <> "".
Proof.
  intros Htexts Hfind.
  assert (Htc := first_accepted_wins self _ _ seg
                   (fun s Hs => proj1 (Htexts s Hs)) Hfind).
  apply find_some in Hfind as [Hin Hacc].
  destruct (Htexts seg Hin) as [Hne Hstrip].
  assert (Hflat : concat pages_data <> []).
  { intros Hnil. rewrite Hnil in Hin. contradiction. }
  rewrite process_segments_nonempty by assumption. cbv zeta.
  rewrite Htc, title_fallback_set by assumption. cbn [bind].
  eexists. split; [reflexivity|]. simpl.
  split; [reflexivity | now apply stripped_clean_nonempty].
Qed.

(** With a number of heading levels that is not negative the classifier
    returns. *)
Lemma process_segments_returns self pages_data :
  0 <= heading_levels self ->
  exists out, _process_segments self pages_data = Return out.
Proof.
  intros Hh. destruct (concat pages_data) as [|seg l] eqn:Hflat.
  - unfold _process_segments. rewrite Hflat. eauto.
  - assert (Hne : concat pages_data <> []) by congruence.
    apply (proj2 (process_segments_table self pages_data Hne)).
    destruct (level_sizes_head self _ Hh Hne) as (x & rest & _ & ->).
    discriminate.
Qed.

End PyMuPDFPages.

(** X12. The pages the PyMuPDF backend hands to the classifier: no page is
    empty, the pages are in strictly increasing order of page number, the
    segments of one page have one page number, which lies between 1 and the
    smaller of the number of pages and [max_pages], and every text is
    stripped and not empty. *)
Theorem pymupdf_pages_structure (mean : list Q -> Q)
    (self : PDFOutlineExtractor) (doc : Doc) :
  let pages_data := pymupdf_pages mean 0 (scanned_pages self doc) in
  Forall (fun segments => segments <> []) pages_data /\
  pages_ascending pages_data /\
  Forall (fun segments =>
            forall s1 s2, In s1 segments -> In s2 segments ->
                          seg_page s1 = seg_page s2) pages_data /\
  (forall seg, In seg (concat pages_data) ->
     1 <= seg_page seg
       <= Z.min (Z.of_nat (List.length doc)) (max_pages self) /\
     seg_text seg <> "" /\ Str.strip (seg_text seg) = seg_text seg) /\
  (List.length pages_data <= List.length (scanned_pages self doc))%nat.
Proof.
  intros pages_data.
  destruct (pymupdf_pages_spec mean (scanned_pages self doc) 0)
    as (Hall & Hasc & Hlen).
  fold pages_data in Hall, Hasc, Hlen. rewrite Forall_forall in Hall.
  split; [|split; [exact Hasc|split; [|split; [|exact Hlen]]]].
  - apply Forall_forall. intros segs Hsegs. now apply Hall.
  - apply Forall_forall. intros segs Hsegs s1 s2 Hs1 Hs2.
    destruct (Hall segs Hsegs) as (_ & p & _ & Hp).
    destruct (Hp s1 Hs1) as [-> _]. destruct (Hp s2 Hs2) as [-> _].
    reflexivity.
  - intros seg Hseg. apply in_concat in Hseg as (segs & Hsegs & Hseg).
    destruct (Hall segs Hsegs) as (_ & p & Hp & Hprops).
    destruct (Hprops seg Hseg) as (-> & Hne & Hstrip).
    split; [|auto].
    assert (Hscan : scanned_pages self doc <> []).
    { intros Hnil. rewrite Hnil in Hp. simpl in Hp. lia. }
    rewrite <- (scanned_pages_length self doc Hscan). lia.
Qed.

(** X13. Only the first [max_pages] pages of a document count: a longer
    document gives the result of its first [max_pages] pages, without any
    error, and pages added after them change nothing; with [max_pages] at
    most 0 the result is the empty outline. *)
Theorem pymupdf_truncates_at_max_pages (mean : list Q -> Q)
    (self : PDFOutlineExtractor) (doc : Doc) :
  _extract_with_pymupdf mean self (firstn (Z.to_nat (max_pages self)) doc)
  = _extract_with_pymupdf mean self doc /\
  (forall more,
      max_pages self <= Z.of_nat (List.length doc) ->
      _extract_with_pymupdf mean self (doc ++ more)%list
      = _extract_with_pymupdf mean self doc) /\
  (max_pages self <= 0 ->
   _extract_with_pymupdf mean self doc
   = Return {| title := ""; outline := [] |}).
Proof.
  unfold _extract_with_pymupdf. split; [|split].
  - now rewrite scanned_pages_firstn.
  - intros more Hlen.
    rewrite <- (scanned_pages_firstn self (doc ++ more)%list),
            <- (scanned_pages_firstn self doc).
    rewrite firstn_app.
    replace (Z.to_nat (max_pages self) - List.length doc)%nat with 0%nat
      by lia.
    now rewrite firstn_O, app_nil_r.
  - intros Hmax. unfold scanned_pages.
    replace (Z.to_nat (Z.min (Z.of_nat (List.length doc)) (max_pages self)))
      with 0%nat by lia.
    reflexivity.
Qed.

Lemma pymupdf_truncates_at_max_pages_witness :
  let self := {| max_pages := 1; heading_levels := 3 |} in
  let first : Page := [Some [[mkSpan "Title " (20#1) "Helvetica-Bold"]]] in
  let second : Page := [Some [[mkSpan "Later" (30#1) "Helvetica"]]] in
  max_pages self <= Z.of_nat (List.length [first]) /\
  _extract_with_pymupdf exact_mean self ([first] ++ [second])%list
  = _extract_with_pymupdf exact_mean self [first] /\
  _extract_with_pymupdf exact_mean self [first; second]
  = Return {| title := "Title"; outline := [] |}.
Proof.
  intros self first second.
  assert (Hlen : max_pages self <= Z.of_nat (List.length [first]))
    by (simpl; lia).
  split; [exact Hlen|]. split; [|reflexivity].
  exact (proj1 (proj2 (pymupdf_truncates_at_max_pages exact_mean self
                         [first])) [second] Hlen).
Defined.

(** X14. [extract] raises [ValueError] when the file does not exist; with
    PyMuPDF and a number of heading levels that is not negative, it returns
    an outline for every document that exists: the PyMuPDF backend divides by
    no empty list and the classifier finds its level size table filled. *)
Theorem extract_with_pymupdf_total (mean : list Q -> Q)
    (self : PDFOutlineExtractor) :
  0 <= heading_levels self ->
  (forall HAS_PYMUPDF, extract mean HAS_PYMUPDF self None = Failed ValueError)
  /\
  (forall file,
      exists out,
        extract mean true self (Some file) = Done out /\
        _process_segments self
          (pymupdf_pages mean 0 (scanned_pages self (fitz_open file)))
        = Return out).
Proof.
  intros Hh. split; [reflexivity|]. intros file.
  destruct (process_segments_returns self
              (pymupdf_pages mean 0 (scanned_pages self (fitz_open file))) Hh)
    as [out Hout].
  exists out. split; [|exact Hout].
  unfold extract, _extract_with_pymupdf. now rewrite Hout.
Qed.

Lemma extract_with_pymupdf_total_witness :
  let file :=
    {| fitz_open :=
         [[Some [[mkSpan " Annual" (18#1) "Times-Bold";
                  mkSpan "  " (10#1) "Times";
                  mkSpan "Report " (18#1) "Times-Black"];
                 [mkSpan "1 Scope" (12#1) "Times"]];
           None]];
       extract_pages := [] |} in
  0 <= heading_levels default_extractor /\
  extract exact_mean true default_extractor (Some file)
  = Done {| title := "Annual Report";
            outline := [ mkHeading "H1" "1 Scope" 1 ] |} /\
  exists out, extract exact_mean true default_extractor (Some file) = Done out.
Proof.
  intros file.
  assert (Hh : 0 <= heading_levels default_extractor) by (simpl; lia).
  split; [exact Hh|]. split; [vm_compute; reflexivity|].
  destruct (proj2 (extract_with_pymupdf_total exact_mean default_extractor Hh)
              file) as (out & Hout & _).
  now exists out.
Defined.

(** X15. On what the PyMuPDF backend produces, the first accepted title
    candidate in scan order is the title: the classifier returns, and its
    title is the cleaned text of that line and is not empty. *)
Theorem pymupdf_first_accepted_is_title (mean : list Q -> Q)
    (self : PDFOutlineExtractor) (doc : Doc) (seg : Segment) :
  let pages_data := pymupdf_pages mean 0 (scanned_pages self doc) in
  let flattened := concat pages_data in
  find (accepted self (level_sizes_of self flattened)) flattened = Some seg ->
  exists out,
    _extract_with_pymupdf mean self doc = Return out /\
    title out = _clean_text (seg_text seg) /\
    title out <> "".
Proof.
  intros pages_data flattened Hfind. unfold _extract_with_pymupdf.
  fold pages_data. apply first_accepted_title; [|exact Hfind].
  intros s Hs. apply in_concat in Hs as (segs & Hsegs & Hs).
  destruct (pymupdf_pages_spec mean (scanned_pages self doc) 0)
    as (Hall & _). rewrite Forall_forall in Hall.
  destruct (Hall segs Hsegs) as (_ & p & _ & Hprops).
  now destruct (Hprops s Hs) as (_ & Hne & Hstrip).
Qed.

Lemma pymupdf_first_accepted_is_title_witness :
  let doc : Doc :=
    [[Some [[mkSpan "   " (20#1) "Times-Bold"];
            [mkSpan "First  title" (20#1) "Times-Bold"];
            [mkSpan "Second title" (20#1) "Times-Bold"]]]] in
  let seg : Segment := ("First  title", 1, 20#1, true) in
  find (accepted default_extractor
          (level_sizes_of default_extractor
             (concat (pymupdf_pages exact_mean 0
                        (scanned_pages default_extractor doc)))))
       (concat (pymupdf_pages exact_mean 0
                  (scanned_pages default_extractor doc)))
  = Some seg /\
  exists out,
    _extract_with_pymupdf exact_mean default_extractor doc = Return out /\
    title out = "First title".
Proof.
  intros doc seg.
  assert (Hfind :
    find (accepted default_extractor
            (level_sizes_of default_extractor
               (concat (pymupdf_pages exact_mean 0
                          (scanned_pages default_extractor doc)))))
         (concat (pymupdf_pages exact_mean 0
                    (scanned_pages default_extractor doc)))
    = Some seg) by (vm_compute; reflexivity).
  split; [exact Hfind|].
  destruct (pymupdf_first_accepted_is_title exact_mean default_extractor
              doc seg Hfind) as (out & Hout & Htitle & _).
  exists out. split; [exact Hout|]. rewrite Htitle. reflexivity.
Defined.

(** ** The pdfminer backend *)

Section PdfMiner.

Variable mean : list Q -> Q.

Lemma is_nil_map {A B} (f : A -> B) l : is_nil (map f l) = is_nil l.
Proof. now destruct l. Qed.

Lemma pdfminer_line_failed page_num text_line e :
  pdfminer_line mean page_num text_line = Failed e <->
  e = ZeroDivisionError /\ charless text_line.
Proof.
  unfold pdfminer_line, charless.
  destruct (get_text text_line) as [t|].
  - destruct (String.eqb_spec (Str.strip t) "") as [Hblank|Hne].
    + split; [discriminate|]. intros (_ & t' & Heq & Hne & _).
      inversion Heq; subst. congruence.
    + rewrite is_nil_map.
      destruct (chars_of text_line) as [|c cs] eqn:Hchars; simpl.
      * split.
        -- intros H; inversion H. split; [reflexivity|]. now exists t.
        -- now intros [-> _].
      * split; [discriminate|]. intros (_ & t' & _ & _ & H). discriminate.
  - split; [discriminate|]. intros (_ & t' & H & _). discriminate.
Qed.

Lemma pdfminer_line_done page_num text_line segs seg :
  pdfminer_line mean page_num text_line = Done segs -> In seg segs ->
  seg_page seg = page_num + 1 /\
  Str.strip (seg_text seg) = seg_text seg /\
  from_text_line mean text_line seg.
Proof.
  unfold pdfminer_line, from_text_line.
  destruct (get_text text_line) as [t|];
    [|intros H; inversion H; contradiction].
  destruct (String.eqb_spec (Str.strip t) "") as [Hblank|Hne];
    [intros H; inversion H; contradiction|].
  rewrite is_nil_map.
  destruct (chars_of text_line) as [|c cs] eqn:Hchars; simpl; [discriminate|].
  intros H; inversion H; subst. intros [<-|[]]. simpl.
  split; [reflexivity|]. split; [apply strip_idem|].
  split; [now exists t|]. split; [exact Hne|]. split; [discriminate|].
  reflexivity.
Qed.

Lemma pdfminer_lines_fail page_num lines :
  forall e,
    pdfminer_lines mean page_num lines = Failed e ->
    e = ZeroDivisionError /\
    exists text_line, In text_line lines /\ charless text_line.
Proof.
  induction lines as [|tl lines IH]; simpl; intros e H; [discriminate|].
  destruct (pdfminer_line mean page_num tl) as [segs|e'] eqn:Hline.
  - destruct (pdfminer_lines mean page_num lines) as [more|e''];
      [discriminate|].
    inversion H; subst e''.
    destruct (IH e eq_refl) as (-> & tl' & Hin & Hcl).
    split; [reflexivity|]. exists tl'. auto.
  - inversion H; subst e'.
    apply pdfminer_line_failed in Hline as [-> Hcl].
    split; [reflexivity|]. exists tl. auto.
Qed.

Lemma pdfminer_lines_ok page_num lines segs :
  pdfminer_lines mean page_num lines = Done segs ->
  forall text_line, In text_line lines -> ~ charless text_line.
Proof.
  revert segs. induction lines as [|tl lines IH]; simpl; intros segs H tl' Hin;
    [contradiction|].
  destruct (pdfminer_line mean page_num tl) as [s1|] eqn:Hline;
    [|discriminate].
  destruct (pdfminer_lines mean page_num lines) as [s2|]; [|discriminate].
  destruct Hin as [<-|Hin]; [|now apply (IH s2 eq_refl)].
  intros Hcl.
  assert (Hf : pdfminer_line mean page_num tl = Failed ZeroDivisionError)
    by now apply pdfminer_line_failed.
  congruence.
Qed.

Lemma pdfminer_lines_done page_num lines segs seg :
  pdfminer_lines mean page_num lines = Done segs -> In seg segs ->
  seg_page seg = page_num + 1 /\
  Str.strip (seg_text seg) = seg_text seg /\
  exists text_line, In text_line lines /\ from_text_line mean text_line seg.
Proof.
  revert segs. induction lines as [|tl lines IH]; simpl; intros segs H Hin.
  - inversion H; subst. contradiction.
  - destruct (pdfminer_line mean page_num tl) as [s1|] eqn:Hline;
      [|discriminate].
    destruct (pdfminer_lines mean page_num lines) as [s2|]; [|discriminate].
    inversion H; subst. apply in_app_iff in Hin as [Hin|Hin].
    + destruct (pdfminer_line_done _ _ _ _ Hline Hin) as (Hp & Hs & Hfrom).
      split; [exact Hp|]. split; [exact Hs|]. exists tl. auto.
    + destruct (IH s2 eq_refl Hin) as (Hp & Hs & tl' & Hin' & Hfrom).
      split; [exact Hp|]. split; [exact Hs|]. exists tl'. auto.
Qed.

Lemma pdfminer_page_fail page_num page_layout :
  forall e,
    pdfminer_page mean page_num page_layout = Failed e ->
    e = ZeroDivisionError /\ charless_page page_layout.
Proof.
  unfold charless_page.
  induction page_layout as [|element rest IH]; simpl; intros e H;
    [discriminate|].
  destruct (match element with
            | Some lines => pdfminer_lines mean page_num lines
            | None => Done []
            end) as [segs|e'] eqn:Helt.
  - destruct (pdfminer_page mean page_num rest) as [more|e''];
      [discriminate|].
    inversion H; subst e''.
    destruct (IH e eq_refl) as (-> & lines & tl & Hin & Htl & Hcl).
    split; [reflexivity|]. exists lines, tl. auto.
  - inversion H; subst e'.
    destruct element as [lines|]; [|discriminate].
    apply pdfminer_lines_fail in Helt as (-> & tl & Htl & Hcl).
    split; [reflexivity|]. exists lines, tl. auto.
Qed.

Lemma pdfminer_page_ok page_num page_layout segs :
  pdfminer_page mean page_num page_layout = Done segs ->
  ~ charless_page page_layout.
Proof.
  unfold charless_page. revert segs.
  induction page_layout as [|element rest IH]; simpl; intros segs H.
  - now intros (lines & tl & [] & _).
  - destruct (match element with
              | Some lines => pdfminer_lines mean page_num lines
              | None => Done []
              end) as [s1|] eqn:Helt; [|discriminate].
    destruct (pdfminer_page mean page_num rest) as [s2|]; [|discriminate].
    intros (lines & tl & [->|Hin] & Htl & Hcl).
    + now apply (pdfminer_lines_ok _ _ _ Helt tl Htl).
    + apply (IH s2 eq_refl). exists lines, tl. auto.
Qed.

Lemma pdfminer_page_done page_num page_layout segs seg :
  pdfminer_page mean page_num page_layout = Done segs -> In seg segs ->
  seg_page seg = page_num + 1 /\
  Str.strip (seg_text seg) = seg_text seg /\
  from_layout mean page_layout seg.
Proof.
  unfold from_layout. revert segs.
  induction page_layout as [|element rest IH]; simpl; intros segs H Hin.
  - inversion H; subst. contradiction.
  - destruct (match element with
              | Some lines => pdfminer_lines mean page_num lines
              | None => Done []
              end) as [s1|] eqn:Helt; [|discriminate].
    destruct (pdfminer_page mean page_num rest) as [s2|]; [|discriminate].
    inversion H; subst. apply in_app_iff in Hin as [Hin|Hin].
    + destruct element as [lines|];
        [|inversion Helt; subst; contradiction].
      destruct (pdfminer_lines_done _ _ _ _ Helt Hin)
        as (Hp & Hs & tl & Htl & Hfrom).
      split; [exact Hp|]. split; [exact Hs|]. exists lines, tl. auto.
    + destruct (IH s2 eq_refl Hin) as (Hp & Hs & lines & tl & Hl & Htl & Hfrom).
      split; [exact Hp|]. split; [exact Hs|]. exists lines, tl. auto.
Qed.

Lemma pdfminer_pages_fail layouts :
  forall page_num e,
    pdfminer_pages mean page_num layouts = Failed e ->
    e = ZeroDivisionError /\
    exists page_layout, In page_layout layouts /\ charless_page page_layout.
Proof.
  induction layouts as [|layout rest IH]; intros k e; simpl; intros H;
    [discriminate|].
  destruct (pdfminer_page mean k layout) as [segs|e'] eqn:Hpage.
  - destruct (pdfminer_pages mean (k + 1) rest) as [more|e''] eqn:Hrest;
      [discriminate|].
    inversion H; subst e''.
    destruct (IH _ _ Hrest) as (-> & l & Hin & Hcl).
    split; [reflexivity|]. exists l. auto.
  - inversion H; subst e'.
    apply pdfminer_page_fail in Hpage as [-> Hcl].
    split; [reflexivity|]. exists layout. auto.
Qed.

Lemma pdfminer_pages_ok layouts :
  forall page_num pages_data,
    pdfminer_pages mean page_num layouts = Done pages_data ->
    forall page_layout, In page_layout layouts -> ~ charless_page page_layout.
Proof.
  induction layouts as [|layout rest IH]; intros k pd; simpl; intros H l Hin;
    [contradiction|].
  destruct (pdfminer_page mean k layout) as [segs|] eqn:Hpage;
    [|discriminate].
  destruct (pdfminer_pages mean (k + 1) rest) as [more|] eqn:Hrest;
    [|discriminate].
  destruct Hin as [<-|Hin].
  - now apply (pdfminer_page_ok _ _ _ Hpage).
  - now apply (IH _ _ Hrest).
Qed.

Lemma pdfminer_pages_done layouts :
  forall page_num pages_data,
    pdfminer_pages mean page_num layouts = Done pages_data ->
    Forall (fun segments =>
              segments <> [] /\
              exists p,
                page_num < p <= page_num + Z.of_nat (List.length layouts) /\
                forall seg, In seg segments ->
                  seg_page seg = p /\
                  Str.strip (seg_text seg) = seg_text seg /\
                  exists page_layout,
                    In page_layout layouts /\ from_layout mean page_layout seg)
           pages_data /\
    pages_ascending pages_data.
Proof.
  induction layouts as [|layout rest IH]; intros k pd; simpl; intros H.
  - inversion H; subst. split; constructor.
  - destruct (pdfminer_page mean k layout) as [segs|] eqn:Hpage;
      [|discriminate].
    destruct (pdfminer_pages mean (k + 1) rest) as [more|] eqn:Hrest;
      [|discriminate].
    inversion H; subst pd. clear H.
    destruct (IH (k + 1) more Hrest) as (Hall & Hasc).
    assert (Hall' :
      Forall (fun segments =>
                segments <> [] /\
                exists p,
                  k + 1 < p <= k + Z.pos (Pos.of_succ_nat (List.length rest))
                  /\ forall seg, In seg segments ->
                    seg_page seg = p /\
                    Str.strip (seg_text seg) = seg_text seg /\
                    exists page_layout,
                      (layout = page_layout \/ In page_layout rest) /\
                      from_layout mean page_layout seg)
             more).
    { eapply Forall_impl; [|exact Hall]. cbn beta.
      intros s (Hne & p & Hp & Hsegs). split; [exact Hne|].
      exists p. split; [lia|]. intros seg Hseg.
      destruct (Hsegs seg Hseg) as (E1 & E2 & l & Hl & Hfrom).
      split; [exact E1|]. split; [exact E2|]. exists l. auto. }
    destruct (is_nil segs) eqn:Hnil; cbn [app].
    + split; [|exact Hasc].
      eapply Forall_impl; [|exact Hall']. cbn beta.
      intros s (Hne & p & Hp & Hsegs). split; [exact Hne|].
      exists p. split; [lia | exact Hsegs].
    + apply is_nil_false in Hnil. split.
      * constructor.
        -- split; [exact Hnil|]. exists (k + 1). split; [lia|].
           intros seg Hseg.
           destruct (pdfminer_page_done _ _ _ _ Hpage Hseg) as (E1 & E2 & Hf).
           split; [exact E1|]. split; [exact E2|]. exists layout. auto.
        -- eapply Forall_impl; [|exact Hall']. cbn beta.
           intros s (Hne & p & Hp & Hsegs). split; [exact Hne|].
           exists p. split; [lia | exact Hsegs].
      * constructor; [exact Hasc|].
        rewrite Forall_forall in Hall' |- *.
        intros later Hlater s1 s2 Hs1 Hs2.
        destruct (Hall' later Hlater) as (_ & p & Hp & Hsegs).
        destruct (pdfminer_page_done _ _ _ _ Hpage Hs1) as (-> & _).
        destruct (Hsegs s2 Hs2) as [-> _]. lia.
Qed.

End PdfMiner.

(** X16. The pdfminer backend fails with [ZeroDivisionError] exactly when a
    text container of a scanned page holds a line whose stripped text is not
    empty and which has no [LTChar]: line 118 then divides by the length of
    an empty list, just after line 111 has replaced the empty sizes by [0].
    Without such a line, and with a number of heading levels that is not
    negative, the backend returns an outline. *)
Theorem pdfminer_zero_division_iff (mean : list Q -> Q)
    (self : PDFOutlineExtractor) (layouts : list PageLayout) :
  (_extract_with_pdfminer mean self layouts = Failed ZeroDivisionError <->
   exists page_layout, In page_layout layouts /\ charless_page page_layout) /\
  (0 <= heading_levels self ->
   (forall page_layout, In page_layout layouts ->
                        ~ charless_page page_layout) ->
   exists out, _extract_with_pdfminer mean self layouts = Done out).
Proof.
  unfold _extract_with_pdfminer.
  destruct (pdfminer_pages mean 0 layouts) as [pages_data|e] eqn:Hpages.
  - split.
    + split.
      * destruct (_process_segments self pages_data); discriminate.
      * intros (l & Hin & Hcl). exfalso.
        now apply (pdfminer_pages_ok mean _ _ _ Hpages l Hin).
    + intros Hh _.
      destruct (process_segments_returns self pages_data Hh) as [out ->].
      now exists out.
  - apply pdfminer_pages_fail in Hpages as (-> & l & Hin & Hcl). split.
    + split; [intros _; exists l; auto | reflexivity].
    + intros _ Hnone. exfalso. now apply (Hnone l Hin).
Qed.

Lemma pdfminer_zero_division_iff_witness :
  let char := IsLTChar (mkLTChar (14#1) "Times-Bold") in
  let good := mkTextLine (Some "Summary ") [char; NotLTChar; char] in
  let bad := mkTextLine (Some "x") [NotLTChar] in
  _extract_with_pdfminer exact_mean default_extractor
    [[Some [good]]; [None; Some [bad]]]
  = Failed ZeroDivisionError /\
  _extract_with_pdfminer exact_mean default_extractor [[Some [good]]; [None]]
  = Done {| title := "Summary"; outline := [] |}.
Proof.
  intros char good bad. split; [|vm_compute; reflexivity].
  apply (proj1 (pdfminer_zero_division_iff exact_mean default_extractor
                  [[Some [good]]; [None; Some [bad]]])).
  exists [None; Some [bad]]. split; [right; left; reflexivity|].
  exists [bad], bad. split; [right; left; reflexivity|].
  split; [left; reflexivity|].
  exists "x". repeat split. discriminate.
Defined.

(** X17. When the pdfminer backend gets through the pages, no page it hands
    to the classifier is empty, the pages are in strictly increasing order
    of page number, every page number lies between 1 and the number of
    scanned pages, every text is stripped and not empty, and every size is
    the average of the sizes of at least one character of the line: the
    default size 0 of line 111 never reaches the classifier. *)
Theorem pdfminer_pages_structure (mean : list Q -> Q)
    (layouts : list PageLayout) (pages_data : list (list Segment)) :
  pdfminer_pages mean 0 layouts = Done pages_data ->
  Forall (fun segments => segments <> []) pages_data /\
  pages_ascending pages_data /\
  (forall seg, In seg (concat pages_data) ->
     1 <= seg_page seg <= Z.of_nat (List.length layouts) /\
     seg_text seg <> "" /\
     Str.strip (seg_text seg) = seg_text seg /\
     exists page_layout,
       In page_layout layouts /\ from_layout mean page_layout seg).
Proof.
  intros Hpages.
  destruct (pdfminer_pages_done mean layouts 0 pages_data Hpages)
    as (Hall & Hasc).
  rewrite Forall_forall in Hall.
  split; [|split; [exact Hasc|]].
  - apply Forall_forall. intros segs Hsegs. now apply Hall.
  - intros seg Hseg. apply in_concat in Hseg as (segs & Hsegs & Hseg).
    destruct (Hall segs Hsegs) as (_ & p & Hp & Hprops).
    destruct (Hprops seg Hseg) as (-> & Hstrip & l & Hl & Hfrom).
    split; [lia|]. split; [|split; [exact Hstrip|]].
    + destruct Hfrom as (lines & tl & _ & _ & _ & Hne & _). exact Hne.
    + exists l. auto.
Qed.

Lemma pdfminer_pages_structure_witness :
  let char := IsLTChar (mkLTChar (14#1) "Times-Bold") in
  let small := IsLTChar (mkLTChar (10#1) "Times") in
  let layouts : list PageLayout :=
    [[None]; [Some [mkTextLine (Some " Summary ") [char; small];
                    mkTextLine None [small];
                    mkTextLine (Some "  ") []]]] in
  let pages_data : list (list Segment) := [[("Summary", 2, 24#2, false)]] in
  pdfminer_pages exact_mean 0 layouts = Done pages_data /\
  Forall (fun segments => segments <> []) pages_data /\
  pages_ascending pages_data.
Proof.
  intros char small layouts pages_data.
  assert (Hpages : pdfminer_pages exact_mean 0 layouts = Done pages_data)
    by (vm_compute; reflexivity).
  split; [exact Hpages|].
  destruct (pdfminer_pages_structure exact_mean layouts pages_data Hpages)
    as (Hne & Hasc & _).
  split; [exact Hne | exact Hasc].
Defined.

(** X18. On what the pdfminer backend produces, too, the first accepted
    title candidate in scan order is the title: the backend returns, and the
    title is the cleaned text of that line and is not empty. *)
Theorem pdfminer_first_accepted_is_title (mean : list Q -> Q)
    (self : PDFOutlineExtractor) (layouts : list PageLayout)
    (pages_data : list (list Segment)) (seg : Segment) :
  let flattened := concat pages_data in
  pdfminer_pages mean 0 layouts = Done pages_data ->
  find (accepted self (level_sizes_of self flattened)) flattened = Some seg ->
  exists out,
    _extract_with_pdfminer mean self layouts = Done out /\
    title out = _clean_text (seg_text seg) /\
    title out <> "".
Proof.
  intros flattened Hpages Hfind. unfold _extract_with_pdfminer.
  rewrite Hpages.
  destruct (first_accepted_title self pages_data seg) as (out & -> & Ht & Hne).
  - intros s Hs. apply in_concat in Hs as (segs & Hsegs & Hs).
    destruct (pdfminer_pages_done mean layouts 0 pages_data Hpages)
      as (Hall & _). rewrite Forall_forall in Hall.
    destruct (Hall segs Hsegs) as (_ & p & _ & Hprops).
    destruct (Hprops s Hs) as (_ & Hstrip & l & _ & Hfrom).
    destruct Hfrom as (lines & tl & _ & _ & _ & Hne & _). auto.
  - exact Hfind.
  - exists out. auto.
Qed.

Lemma pdfminer_first_accepted_is_title_witness :
  let char := IsLTChar (mkLTChar (14#1) "Times-Bold") in
  let layouts : list PageLayout :=
    [[Some [mkTextLine (Some " ") [char];
            mkTextLine (Some " Summary ") [char];
            mkTextLine (Some "Other") [char]]]] in
  let pages_data : list (list Segment) :=
    [[("Summary", 1, 14#1, true); ("Other", 1, 14#1, true)]] in
  pdfminer_pages exact_mean 0 layouts = Done pages_data /\
  exists out,
    _extract_with_pdfminer exact_mean default_extractor layouts = Done out /\
    title out = "Summary".
Proof.
  intros char layouts pages_data.
  assert (Hpages : pdfminer_pages exact_mean 0 layouts = Done pages_data)
    by (vm_compute; reflexivity).
  split; [exact Hpages|].
  destruct (pdfminer_first_accepted_is_title exact_mean default_extractor
              layouts pages_data ("Summary", 1, 14#1, true) Hpages)
    as (out & Hout & Htitle & _); [reflexivity|].
  exists out. split; [exact Hout|]. rewrite Htitle. reflexivity.
Defined.
